(** * Swap state hooks of the AnimeSwap front end

    A shallow embedding of [src/state/swap/hooks.tsx]: the action handlers,
    the derivation of the swap view model ([useDerivedSwapInfo]) and the
    parser of the URL query ([queryParametersToSwapState]).

    Conventions.
    - A JavaScript string is the sequence of its code units; the model keeps
      the code units below 256, so a string is a [string] of [ascii].
    - [null] and [undefined] of an optional value are [None].
    - A call that may raise a JavaScript exception lives in the [completion]
      monad: [Normal v] is a normal return, [Throw e] an exception.
    - What the file imports from modules outside of it ([isAddress],
      [tryParseCoinAmount], the SDK's decimals, the hooks) is a parameter:
      a section variable, a field of the class [Sdk] or of the record
      [Render].  The reducer behind [dispatch] follows the specification. *)

From Stdlib Require Import String Ascii List Bool Arith NArith QArith Lia.
From Stdlib Require Import DecimalString.
From stdpp Require Import base option strings gmap.
Import ListNotations.

Local Open Scope string_scope.
Local Open Scope list_scope.
Local Open Scope nat_scope.

(** ** Completions: normal return or thrown exception *)

Inductive JsError : Type :=
| TypeError.

Inductive completion (A : Type) : Type :=
| Normal (a : A)
| Throw (e : JsError).

Arguments Normal {A} a.
Arguments Throw {A} e.

#[global] Instance completion_ret : MRet completion := fun A a => Normal a.

#[global] Instance completion_bind : MBind completion := fun A B f m =>
  match m with
  | Normal a => f a
  | Throw e => Throw e
  end.

(** ** Characters and strings *)

Module JsString.

Definition code (c : ascii) : nat := nat_of_ascii c.

Definition between (lo hi : nat) (c : ascii) : bool :=
  (lo <=? code c) && (code c <=? hi).

Definition isDigit (c : ascii) : bool := between 48 57 c.
Definition isUpper (c : ascii) : bool := between 65 90 c.
Definition isLower (c : ascii) : bool := between 97 122 c.
Definition isAlnum (c : ascii) : bool := isLower c || isUpper c || isDigit c.
Definition isHex (c : ascii) : bool :=
  between 97 102 c || between 65 70 c || isDigit c.

(** [\w] of a regular expression: letters, digits and the underscore. *)
Definition isWord (c : ascii) : bool := isAlnum c || Ascii.eqb c "_".

(** WhiteSpace and LineTerminator code units below 256: TAB, LF, VT, FF,
    CR, SP and NBSP. *)
Definition isWhiteSpace (c : ascii) : bool :=
  between 9 13 c || (code c =? 32) || (code c =? 160).

Definition oneOf (cs : string) (c : ascii) : bool :=
  existsb (Ascii.eqb c) (list_ascii_of_string cs).

(** [String.prototype.toLowerCase] on code units below 256: the letters
    A-Z and the upper-case letters of Latin-1 (C0-DE but D7) move by 32. *)
Definition lowerChar (c : ascii) : ascii :=
  if isUpper c || (between 192 222 c && negb (code c =? 215))
  then ascii_of_nat (code c + 32)
  else c.

Fixpoint toLowerCase (s : string) : string :=
  match s with
  | EmptyString => EmptyString
  | String c s' => String (lowerChar c) (toLowerCase s')
  end.

Fixpoint trimStart (l : list ascii) : list ascii :=
  match l with
  | c :: l' => if isWhiteSpace c then trimStart l' else l
  | [] => []
  end.

(** Longest prefix of characters satisfying [p], and the rest. *)
Fixpoint span (p : ascii -> bool) (l : list ascii) : list ascii * list ascii :=
  match l with
  | c :: l' =>
      if p c then let '(a, b) := span p l' in (c :: a, b) else ([], l)
  | [] => ([], [])
  end.

Fixpoint startsWith (pre l : list ascii) : bool :=
  match pre, l with
  | [], _ => true
  | a :: pre', b :: l' => Ascii.eqb a b && startsWith pre' l'
  | _ :: _, [] => false
  end.

End JsString.

(** ** Numbers produced by [parseFloat]

    [parseFloat] reads the longest prefix of the trimmed input that is a
    StrDecimalLiteral.  The model keeps the literal that was read instead of
    its floating-point value: [NaN] when there is no such prefix, [Infinite]
    for the literal [Infinity], [DecimalLit] with the text of the literal
    otherwise. *)

Module JsNumber.
Import JsString.

Inductive t : Type :=
| NaN
| Infinite (negative : bool)
| DecimalLit (negative : bool) (literal : string).

Definition isNaN (n : t) : bool :=
  match n with
  | NaN => true
  | _ => false
  end.

Definition isSign (c : ascii) : bool := oneOf "+-" c.

(** ExponentPart, when a complete one follows; the empty text otherwise. *)
Definition exponentPart (l : list ascii) : list ascii :=
  match l with
  | e :: l' =>
      if oneOf "eE" e then
        let '(sign, l'') :=
          match l' with
          | s :: r => if isSign s then ([s], r) else ([], l')
          | [] => ([], l')
          end in
        let '(ds, _) := span isDigit l'' in
        match ds with
        | [] => []
        | _ :: _ => e :: sign ++ ds
        end
      else []
  | [] => []
  end.

(** StrUnsignedDecimalLiteral other than [Infinity]. *)
Definition unsignedLiteral (l : list ascii) : option (list ascii) :=
  let '(ip, r) := span isDigit l in
  match r with
  | "."%char :: r' =>
      let '(fp, r'') := span isDigit r' in
      match ip, fp with
      | [], [] => None
      | _, _ => Some (ip ++ "."%char :: fp ++ exponentPart r'')
      end
  | _ =>
      match ip with
      | [] => None
      | _ :: _ => Some (ip ++ exponentPart r)
      end
  end.

Definition parseFloat (input : string) : t :=
  let trimmed := trimStart (list_ascii_of_string input) in
  let '(negative, body) :=
    match trimmed with
    | c :: r => if isSign c then (Ascii.eqb c "-", r) else (false, trimmed)
    | [] => (false, trimmed)
    end in
  if startsWith (list_ascii_of_string "Infinity") body then Infinite negative
  else
    match unsignedLiteral body with
    | Some lit => DecimalLit negative (string_of_list_ascii lit)
    | None => NaN
    end.

End JsNumber.

(** ** Regular expressions

    The two patterns of the source are anchored sequences of bounded
    repetitions of a character class, with one word-boundary assertion.
    [regex_test] is [RegExp.prototype.test] for such a pattern (no [g] or
    [y] flag, so a test has no state): the pattern matches when the input
    splits into runs that obey the repetition bounds. *)

Module Regex.
Import JsString.

Inductive atom : Type :=
| Chars (cls : ascii -> bool) (lo : nat) (hi : option nat)
| WordBoundary.

(** [\b]: exactly one of the characters around the position is a word
    character; there is no character before the start and after the end. *)
Definition boundary (prev next : option ascii) : bool :=
  xorb (from_option isWord false prev) (from_option isWord false next).

Definition decr (hi : option nat) : option nat := Nat.pred <$> hi.

Definition more (hi : option nat) : bool :=
  match hi with
  | Some n => 0 <? n
  | None => true
  end.

(** Repetition of a class followed by the continuation [k]; every count in
    the bounds is tried, as backtracking does. *)
Fixpoint rep (cls : ascii -> bool) (k : option ascii -> list ascii -> bool)
    (lo : nat) (hi : option nat) (prev : option ascii) (s : list ascii) : bool :=
  ((lo =? 0) && k prev s)
  || match s with
     | c :: s' => more hi && cls c && rep cls k (Nat.pred lo) (decr hi) (Some c) s'
     | [] => false
     end.

(** The pattern between [^] and [$]. *)
Fixpoint matchFrom (r : list atom) (prev : option ascii) (s : list ascii) : bool :=
  match r with
  | [] => match s with [] => true | _ :: _ => false end
  | Chars cls lo hi :: r' => rep cls (matchFrom r') lo hi prev s
  | WordBoundary :: r' => boundary prev (head s) && matchFrom r' prev s
  end.

Definition regex_test (r : list atom) (s : string) : bool :=
  matchFrom r None (list_ascii_of_string s).

Definition lit (c : ascii) : atom := Chars (Ascii.eqb c) 1 (Some 1).

End Regex.

(** The pattern of [ENS_NAME_REGEX], atom by atom:
    [^], [[-a-zA-Z0-9@:%._+~#=]{1,256}], an escaped dot,
    [[a-zA-Z0-9()]{1,6}], [\b], an optional group holding the starred class
    [[-a-zA-Z0-9()@:%_+.~#?&/=]], [$].
    The optional group of a starred class is the starred class. *)
Definition nameChar (c : ascii) : bool :=
  JsString.isAlnum c || JsString.oneOf "-@:%._+~#=" c.

Definition suffixChar (c : ascii) : bool :=
  JsString.isAlnum c || JsString.oneOf "()" c.

Definition tailChar (c : ascii) : bool :=
  JsString.isAlnum c || JsString.oneOf "-()@:%_+.~#?&/=" c.

Definition ENS_NAME_REGEX : list Regex.atom :=
  [ Regex.Chars nameChar 1 (Some 256);
    Regex.lit ".";
    Regex.Chars suffixChar 1 (Some 6);
    Regex.WordBoundary;
    Regex.Chars tailChar 0 None ].

(** [/^0x[a-fA-F0-9]{40}$/] *)
Definition ADDRESS_REGEX : list Regex.atom :=
  [ Regex.lit "0"; Regex.lit "x"; Regex.Chars JsString.isHex 40 (Some 40) ].

(** ** Swap state (the store slice of [./reducer] and [./actions]) *)

Module Field.
Inductive t : Type :=
| INPUT
| OUTPUT.

Definition eqb (a b : t) : bool :=
  match a, b with
  | INPUT, INPUT | OUTPUT, OUTPUT => true
  | _, _ => false
  end.

Definition other (f : t) : t :=
  match f with
  | INPUT => OUTPUT
  | OUTPUT => INPUT
  end.
End Field.

Record CurrencySlot : Type := { currencyId : option string }.

Record SwapState : Type := {
  INPUT : CurrencySlot;
  OUTPUT : CurrencySlot;
  typedValue : string;
  independentField : Field.t;
  recipient : option string;
}.

(** ** Values of a parsed query ([ParsedQs[string]] of [qs]):
    [undefined | string | string[] | ParsedQs | ParsedQs[]] *)

#[warnings="-register-all"] Inductive qsValue : Type :=
| QUndefined
| QString (s : string)
| QStringArray (l : list string)
| QObject (o : gmap string qsValue)
| QObjectArray (l : list (gmap string qsValue)).

(** Property read [parsedQs.key]: an absent key reads as [undefined]. *)
Definition prop (parsedQs : gmap string qsValue) (key : string) : qsValue :=
  default QUndefined (parsedQs !! key).

Inductive JsType : Type :=
| TUndefined
| TString
| TObject.

Definition typeof (v : qsValue) : JsType :=
  match v with
  | QUndefined => TUndefined
  | QString _ => TString
  | QStringArray _ | QObject _ | QObjectArray _ => TObject
  end.

Definition isTString (t : JsType) : bool :=
  match t with
  | TString => true
  | _ => false
  end.

(** Method call [v.toLowerCase()] on a value of type [any]: only a string has
    the method; on [undefined], an array or a parsed object the call raises a
    TypeError. *)
Definition callToLowerCase (v : qsValue) : completion string :=
  match v with
  | QString s => Normal (JsString.toLowerCase s)
  | _ => Throw TypeError
  end.

(** Truthiness of [string | null | undefined] and of [string | false]: the
    empty string is falsy. *)
Definition truthy (v : option string) : bool :=
  match v with
  | Some s => negb (String.eqb s "")
  | None => false
  end.

(** ** The URL state parser *)

Section UrlState.

(** [isAddress] of [utils] ([(value: any) => string | false]) at the values
    this file passes to it, a string or [null]; [None] as a result is
    [false]. *)
Variable isAddress : option string -> option string.

(** In the three parsers below the match on [QString] is the test
    [typeof urlParam === 'string']; [isAddress], [parseFloat] and
    [RegExp.prototype.test] are then applied to a string. *)
Definition parseCurrencyFromURLParameter (urlParam : qsValue) : string :=
  match urlParam with
  | QString s =>
      let valid := isAddress (Some s) in
      match valid with
      | Some a => if truthy valid then a else ""
      | None => ""
      end
  | _ => ""
  end.

Definition parseTokenAmountURLParameter (urlParam : qsValue) : string :=
  match urlParam with
  | QString s => if negb (JsNumber.isNaN (JsNumber.parseFloat s)) then s else ""
  | _ => ""
  end.

(** Here the parameter keeps its type [any] up to the method call, which is
    evaluated only when the left operand of [&&] is true. *)
Definition parseIndependentFieldURLParameter (urlParam : qsValue) : completion Field.t :=
  isOutput ←
    (if isTString (typeof urlParam)
     then lower ← callToLowerCase urlParam; mret (String.eqb lower "output")
     else mret false);
  mret (if isOutput : bool then Field.OUTPUT else Field.INPUT).

Definition validatedRecipient (recipient : qsValue) : option string :=
  match recipient with
  | QString s =>
      let address := isAddress (Some s) in
      if truthy address then address
      else if Regex.regex_test ENS_NAME_REGEX s then Some s
      else if Regex.regex_test ADDRESS_REGEX s then Some s
      else None
  | _ => None
  end.

Definition nullIfEmpty (s : string) : option string :=
  if String.eqb s "" then None else Some s.

Definition queryParametersToSwapState (parsedQs : gmap string qsValue) : completion SwapState :=
  let inputCurrency := parseCurrencyFromURLParameter (prop parsedQs "inputCurrency") in
  let outputCurrency := parseCurrencyFromURLParameter (prop parsedQs "outputCurrency") in
  let typedValue := parseTokenAmountURLParameter (prop parsedQs "exactAmount") in
  independentField ← parseIndependentFieldURLParameter (prop parsedQs "exactField");
  let '(inputCurrency, outputCurrency) :=
    if String.eqb inputCurrency "" && String.eqb outputCurrency ""
       && String.eqb typedValue "" && Field.eqb independentField Field.INPUT
    then ("0x1::aptos_coin::AptosCoin", outputCurrency)
    else if String.eqb inputCurrency outputCurrency
    then (inputCurrency, "")
    else (inputCurrency, outputCurrency) in
  let recipient := validatedRecipient (prop parsedQs "recipient") in
  mret {| INPUT := {| currencyId := nullIfEmpty inputCurrency |};
          OUTPUT := {| currencyId := nullIfEmpty outputCurrency |};
          typedValue := typedValue;
          independentField := independentField;
          recipient := recipient |}.

End UrlState.

(** ** Actions and action handlers *)

(** The actions the handlers create (the action creators of [./actions], at
    the payloads of the call sites). *)
Inductive Action : Type :=
| selectCurrency (field : Field.t) (currencyId : string)
| switchCurrencies
| typeInput (field : Field.t) (typedValue : string)
| setRecipient (recipient : option string).

(** Modelled from the spec: the reducer of the swap slice ([./reducer]) is
    not part of the sources.  Section 4.1 of the specification gives what
    each action does to the store: [selectCurrency] sets the currency of the
    field, [switchCurrencies] swaps the INPUT and OUTPUT sides including
    which one is independent, [typeInput] sets the typed value and marks the
    field as independent, [setRecipient] sets or clears the recipient. *)
Definition reducer (state : SwapState) (action : Action) : SwapState :=
  match action with
  | selectCurrency Field.INPUT id =>
      {| INPUT := {| currencyId := Some id |};
         OUTPUT := OUTPUT state;
         typedValue := typedValue state;
         independentField := independentField state;
         recipient := recipient state |}
  | selectCurrency Field.OUTPUT id =>
      {| INPUT := INPUT state;
         OUTPUT := {| currencyId := Some id |};
         typedValue := typedValue state;
         independentField := independentField state;
         recipient := recipient state |}
  | switchCurrencies =>
      {| INPUT := {| currencyId := currencyId (OUTPUT state) |};
         OUTPUT := {| currencyId := currencyId (INPUT state) |};
         typedValue := typedValue state;
         independentField := Field.other (independentField state);
         recipient := recipient state |}
  | typeInput field value =>
      {| INPUT := INPUT state;
         OUTPUT := OUTPUT state;
         typedValue := value;
         independentField := field;
         recipient := recipient state |}
  | setRecipient to =>
      {| INPUT := INPUT state;
         OUTPUT := OUTPUT state;
         typedValue := typedValue state;
         independentField := independentField state;
         recipient := to |}
  end.

(** A store operation: a transformer of the swap slice.  [dispatch] runs the
    reducer on the current state. *)
Definition StoreOp : Type := SwapState -> SwapState.

Definition dispatch (action : Action) : StoreOp :=
  fun state => reducer state action.

(** Coin descriptor of [hooks/common/Coin]: address, symbol and decimals. *)
Record Coin : Type := {
  address : string;
  symbol : string;
  decimals : nat;
}.

(** The four handlers of [useSwapActionHandlers]. *)
Definition onCoinSelection (field : Field.t) (currency : Coin) : StoreOp :=
  dispatch (selectCurrency field (address currency)).

Definition onSwitchTokens : StoreOp :=
  dispatch switchCurrencies.

Definition onUserInput (field : Field.t) (typedValue : string) : StoreOp :=
  dispatch (typeInput field typedValue).

Definition onChangeRecipient (recipient : option string) : StoreOp :=
  dispatch (setRecipient recipient).

(** ** The derived swap information *)

(** What the hook uses of [@animeswap.org/v1-sdk].  [Decimal] is the SDK's
    decimal number object and [Value] what its functions accept (a number, a
    string or a Decimal).  [lt a b] is the result of the JavaScript operator
    [a < b] on two Decimal objects.  The class fixes no reading of it: the
    operator converts each object with its [valueOf], and for the SDK's
    decimals that is their text, so the two texts are compared by code unit
    ([codeUnitLt]); the instance [Sample.sdk] reads it so. *)
Class Sdk : Type := {
  Decimal : Type;
  Value : Type;
  number : N -> Value;
  Utils_d : option Value -> Decimal;
  div : Decimal -> Value -> Decimal;
  lt : Decimal -> Decimal -> bool;
}.

Inductive TradeType : Type :=
| EXACT_INPUT
| EXACT_OUTPUT.

(** Status of a quote, as the pricing-hook contract of the specification
    lists it. *)
Inductive TradeState : Type :=
| LOADING
| NO_ROUTE_FOUND
| VALID.

Definition isNoRouteFound (s : TradeState) : bool :=
  match s with
  | NO_ROUTE_FOUND => true
  | _ => false
  end.

Record Trade `{Sdk} : Type := {
  maximumAmountIn : Decimal;
}.

Module TradeResult.
Record t `{Sdk} : Type := {
  state : TradeState;
  trade : option Trade;
}.
End TradeResult.

(** A rendered [<Trans>] element, by its text with the values filled in. *)
Inductive ReactNode : Type :=
| Trans (message : string).

Module DerivedSwapInfo.
Record t `{Sdk} : Type := {
  coins : Field.t -> option Coin;
  coinBalances : Field.t -> option Decimal;
  isExactIn : bool;
  parsedAmount : option Decimal;
  inputError : option ReactNode;
  trade : TradeResult.t;
  allowedSlippage : Decimal;
}.
End DerivedSwapInfo.

(** What the hooks called by [useDerivedSwapInfo] return in one render pass. *)
Record Render `{Sdk} : Type := {
  useAccount : option string;
  useAllCoinBalance : gmap string Value;
  useSwapState : SwapState;
  useCoin : option string -> option Coin;
  useAnimeSwapTempTrade :
    TradeType -> option Decimal -> option Coin -> option Coin -> TradeResult.t;
}.

(** [a ?? b] *)
Definition nullish {A : Type} (a : option A) (b : A) : option A :=
  match a with
  | Some x => Some x
  | None => Some b
  end.

Definition isSome {A : Type} (a : option A) : bool :=
  match a with
  | Some _ => true
  | None => false
  end.

(** Property read [c.symbol] on a coin that may be [null] or [undefined]. *)
Definition getSymbol (c : option Coin) : completion string :=
  match c with
  | Some coin => Normal (symbol coin)
  | None => Throw TypeError
  end.

Section Derivation.

Context `{Sdk}.

(** [isAddress] of [utils], as in the URL parser. *)
Variable isAddress : option string -> option string.

(** [tryParseCoinAmount] of [utils/tryParseCoinAmount]. *)
Variable tryParseCoinAmount : string -> option Coin -> option Decimal.

Variable r : Render.

Definition account : option string := useAccount r.
Definition allCoinBalances : gmap string Value := useAllCoinBalance r.

Definition inputCurrencyId : option string := currencyId (INPUT (useSwapState r)).
Definition outputCurrencyId : option string := currencyId (OUTPUT (useSwapState r)).

Definition inputCoin : option Coin := useCoin r inputCurrencyId.
Definition outputCoin : option Coin := useCoin r outputCurrencyId.

Definition to : option string :=
  match recipient (useSwapState r) with
  | None => account
  | Some recipient => Some recipient
  end.

Definition isExactIn : bool :=
  Field.eqb (independentField (useSwapState r)) Field.INPUT.

Definition parsedAmount : option Decimal :=
  tryParseCoinAmount (typedValue (useSwapState r))
    (if isExactIn then inputCoin else outputCoin).

Definition trade : TradeResult.t :=
  useAnimeSwapTempTrade r
    (if isExactIn then EXACT_INPUT else EXACT_OUTPUT)
    parsedAmount inputCoin outputCoin.

(** [allCoinBalances[coin?.address]]: the key [undefined] reads the property
    of that name. *)
Definition balanceEntry (coin : option Coin) : option Value :=
  allCoinBalances !! default "undefined" (address <$> coin).

Definition coinBalances (field : Field.t) : option Decimal :=
  match field with
  | Field.INPUT => Some (Utils_d (balanceEntry inputCoin))
  | Field.OUTPUT => Some (Utils_d (balanceEntry outputCoin))
  end.

Definition coins (field : Field.t) : option Coin :=
  match field with
  | Field.INPUT => inputCoin
  | Field.OUTPUT => outputCoin
  end.

Definition allowedSlippage : Decimal :=
  div (Utils_d (Some (number 50%N))) (number 10000%N).

(** The callback of the [useMemo] that computes [inputError]; the local
    variable [inputError] is rebound by each statement. *)
Definition inputError : completion (option ReactNode) :=
  let inputError : option ReactNode := None in
  let inputError :=
    if negb (truthy account)
    then Some (Trans "Connect Wallet")
    else inputError in
  let inputError :=
    if negb (isSome (coins Field.INPUT)) || negb (isSome (coins Field.OUTPUT))
    then nullish inputError (Trans "Select a coin")
    else inputError in
  let inputError :=
    if negb (isSome parsedAmount)
    then nullish inputError (Trans "Enter an amount")
    else inputError in
  let formattedTo := isAddress to in
  let inputError :=
    if negb (truthy to) || negb (truthy formattedTo)
    then nullish inputError (Trans "Enter a recipient")
    else inputError in
  let balanceIn := coinBalances Field.INPUT in
  let amountIn := maximumAmountIn <$> TradeResult.trade trade in
  inputError ←
    match balanceIn, amountIn with
    | Some b, Some a =>
        if lt b a
        then sym ← getSymbol inputCoin;
             mret (Some (Trans ("Insufficient " ++ sym ++ " balance")))
        else mret inputError
    | _, _ => mret inputError
    end;
  let inputError :=
    if isNoRouteFound (TradeResult.state trade)
    then nullish inputError (Trans "No route found")
    else inputError in
  mret inputError.

Definition useDerivedSwapInfo : completion DerivedSwapInfo.t :=
  inputError ← inputError;
  mret {| DerivedSwapInfo.coins := coins;
          DerivedSwapInfo.coinBalances := coinBalances;
          DerivedSwapInfo.isExactIn := isExactIn;
          DerivedSwapInfo.parsedAmount := parsedAmount;
          DerivedSwapInfo.inputError := inputError;
          DerivedSwapInfo.trade := trade;
          DerivedSwapInfo.allowedSlippage := allowedSlippage |}.

End Derivation.

(** ** Notions used to state the properties *)

(** Declarative reading of a pattern: the input splits into one run per
    repetition, each run within its bounds and inside its class, and the
    word-boundary assertions hold where they stand. *)
Definition lastOr (prev : option ascii) (run : list ascii) : option ascii :=
  match last run with
  | Some c => Some c
  | None => prev
  end.

Definition within (lo : nat) (hi : option nat) (n : nat) : Prop :=
  lo <= n /\ forall m, hi = Some m -> n <= m.

Inductive Matches : list Regex.atom -> option ascii -> list ascii -> Prop :=
| Matches_end prev :
    Matches [] prev []
| Matches_chars cls lo hi r prev run rest :
    within lo hi (length run) ->
    Forall (fun c => cls c = true) run ->
    Matches r (lastOr prev run) rest ->
    Matches (Regex.Chars cls lo hi :: r) prev (run ++ rest)
| Matches_boundary r prev s :
    Regex.boundary prev (head s) = true ->
    Matches r prev s ->
    Matches (Regex.WordBoundary :: r) prev s.

(** A string on which [parseFloat] finds a number: after leading white space
    and an optional sign it starts with a digit, with a dot followed by a
    digit, or with [Infinity]. *)
Definition startsNumeric (s : string) : bool :=
  let trimmed := JsString.trimStart (list_ascii_of_string s) in
  let body :=
    match trimmed with
    | c :: rest => if JsString.oneOf "+-" c then rest else trimmed
    | [] => trimmed
    end in
  match body with
  | c :: rest =>
      JsString.isDigit c
      || (Ascii.eqb c "." && from_option JsString.isDigit false (head rest))
      || JsString.startsWith (list_ascii_of_string "Infinity") body
  | [] => false
  end.

(** A number that is finite as far as its literal tells. *)
Definition isFiniteLiteral (n : JsNumber.t) : bool :=
  match n with
  | JsNumber.DecimalLit _ _ => true
  | _ => false
  end.

(** Equality of two strings up to the case of the letters A-Z. *)
Definition sameLetter (a b : ascii) : bool :=
  Ascii.eqb a b
  || (JsString.isUpper a && (JsString.code a + 32 =? JsString.code b))
  || (JsString.isUpper b && (JsString.code b + 32 =? JsString.code a)).

Fixpoint equalsIgnoreCase (s t : string) : bool :=
  match s, t with
  | EmptyString, EmptyString => true
  | String a s', String b t' => sameLetter a b && equalsIgnoreCase s' t'
  | _, _ => false
  end.

(** The operator [<] on two strings: the first code unit that differs
    decides, and a proper prefix is less than the longer string. *)
Fixpoint codeUnitLt (x y : string) : bool :=
  match x, y with
  | _, EmptyString => false
  | EmptyString, String _ _ => true
  | String a x', String b y' =>
      if Ascii.eqb a b then codeUnitLt x' y'
      else JsString.code a <? JsString.code b
  end.

(** The native asset. *)
Definition APT : string := "0x1::aptos_coin::AptosCoin".

(** ** A concrete environment, to run the model *)

Module Sample.

(** An address validator: strings that start with [0x] are addresses. *)
Definition isAddress (v : option string) : option string :=
  match v with
  | Some s =>
      if JsString.startsWith (list_ascii_of_string "0x") (list_ascii_of_string s)
      then Some s else None
  | None => None
  end.

(** Decimal numeral of a natural number. *)
Definition digitsOf (n : N) : string :=
  NilZero.string_of_uint (N.to_uint n).

(** Digits of the fraction [rem / den] (with [rem < den]), up to [fuel]
    digits; it stops when the division is exact, so no zero trails. *)
Fixpoint fractionDigits (fuel : nat) (rem den : N) : string :=
  match fuel with
  | O => ""
  | S fuel' =>
      if (rem =? 0)%N then ""
      else String (ascii_of_N (48 + (10 * rem) / den))
                  (fractionDigits fuel' ((10 * rem) mod den) den)
  end.

(** [valueOf] of a decimal in plain notation: sign, integer part and, when
    there is one, a dot and the fraction (at most twenty digits). *)
Definition valueOf (q : Q) : string :=
  let n := Z.abs_N (Qnum q) in
  let d := Npos (Qden q) in
  let fraction := fractionDigits 20 (n mod d) d in
  let body :=
    (digitsOf (n / d)
     ++ (if String.eqb fraction "" then "" else String "." fraction))%string in
  if (Qnum q <? 0)%Z then String "-" body else body.

(** Amounts as rationals; [<] compares the [valueOf] texts of the two
    amounts by code unit, as the operator does on two Decimal objects. *)
#[local] Instance sdk : Sdk := {|
  Decimal := Q;
  Value := Q;
  number n := inject_Z (Z.of_N n);
  Utils_d v := default 0%Q v;
  div a b := Qdiv a b;
  lt a b := codeUnitLt (valueOf a) (valueOf b);
|}.

Definition aptos : Coin :=
  {| address := APT; symbol := "APT"; decimals := 8 |}.

Definition usdt : Coin :=
  {| address := "0x1::usdt::USDT"; symbol := "USDT"; decimals := 6 |}.

Definition coinOf (id : option string) : option Coin :=
  match id with
  | Some a =>
      if String.eqb a (address aptos) then Some aptos
      else if String.eqb a (address usdt) then Some usdt
      else None
  | None => None
  end.

(** Amounts are read as whole numbers of digits; anything else does not
    parse. *)
Definition tryParseCoinAmount (typed : string) (coin : option Coin) : option Q :=
  match coin, JsNumber.parseFloat typed with
  | Some _, JsNumber.DecimalLit false lit =>
      if forallb JsString.isDigit (list_ascii_of_string lit)
      then Some (inject_Z (Z.of_nat
             (fold_left (fun acc c => 10 * acc + (JsString.code c - 48))
                        (list_ascii_of_string lit) 0)))
      else None
  | _, _ => None
  end.

(** A quote that asks for the parsed amount itself as maximum input. *)
Definition quote (type : TradeType) (amount : option Q) (i o : option Coin) : TradeResult.t :=
  match amount, i, o with
  | Some a, Some _, Some _ =>
      {| TradeResult.state := VALID;
         TradeResult.trade := Some {| maximumAmountIn := a |} |}
  | _, _, _ =>
      {| TradeResult.state := LOADING; TradeResult.trade := None |}
  end.

Definition swap (typed : string) (to : option string) : SwapState :=
  {| INPUT := {| currencyId := Some (address aptos) |};
     OUTPUT := {| currencyId := Some (address usdt) |};
     typedValue := typed;
     independentField := Field.INPUT;
     recipient := to |}.

(** A render pass: account, balance of APT, typed amount, recipient. *)
Definition render (account : option string) (balance : option Q)
    (typed : string) (to : option string) : Render :=
  {| useAccount := account;
     useAllCoinBalance :=
       match balance with
       | Some b => {[ address aptos := b ]}
       | None => ∅
       end;
     useSwapState := swap typed to;
     useCoin := coinOf;
     useAnimeSwapTempTrade := quote |}.

(** A connected account that holds 9 APT and asks to swap 10. *)
Definition nineAgainstTen : Render :=
  render (Some "0xa11ce") (Some 9%Q) "10" None.

(** A connected account that holds 10 APT and asks to swap 7. *)
Definition tenAgainstSeven : Render :=
  render (Some "0xa11ce") (Some 10%Q) "7" None.

End Sample.

(** ** Seeding the store from the URL ([useDefaultsFromURLSearch]) *)

(** Payload of the [replaceSwapState] action, as the call site builds it. *)
Module ReplaceSwapState.
Record t : Type := {
  typedValue : string;
  field : Field.t;
  inputCurrencyId : option string;
  outputCurrencyId : option string;
  recipient : option string;
}.
End ReplaceSwapState.

(** What the hooks called by [useDefaultsFromURLSearch] return in one render
    pass.  The chain id is a value of a type this file does not see;
    [useAppDispatch] is the identity of the dispatch function. *)
Record UrlRender (ChainId : Type) : Type := {
  useChainId : option ChainId;
  useAppDispatch : nat;
  useParsedQueryString : gmap string qsValue;
}.

Arguments useChainId {ChainId} _.
Arguments useAppDispatch {ChainId} _.
Arguments useParsedQueryString {ChainId} _.

Section Defaults.

Variable isAddress : option string -> option string.

Context {ChainId : Type} `{EqDecision ChainId}.

(** Truthiness of a chain id that is present. *)
Variable chainTruthy : ChainId -> bool.

(** The body of the effect: nothing without a chain id, one
    [replaceSwapState] otherwise. *)
Definition seedEffect (chainId : option ChainId) (parsedSwapState : SwapState)
    : option ReplaceSwapState.t :=
  if negb (from_option chainTruthy false chainId) then None
  else
    let inputCurrencyId := currencyId (INPUT parsedSwapState) in
    let outputCurrencyId := currencyId (OUTPUT parsedSwapState) in
    Some {| ReplaceSwapState.typedValue := typedValue parsedSwapState;
            ReplaceSwapState.field := independentField parsedSwapState;
            ReplaceSwapState.inputCurrencyId := inputCurrencyId;
            ReplaceSwapState.outputCurrencyId := outputCurrencyId;
            ReplaceSwapState.recipient := recipient parsedSwapState |}.

(** The dependency list of the effect, [[dispatch, chainId]]. *)
Definition effectDeps (u : UrlRender ChainId) : nat * option ChainId :=
  (useAppDispatch u, useChainId u).

(** An effect runs after the first render and after a render whose
    dependency list differs from the one of the render before. *)
Definition effectRuns (prevDeps : option (nat * option ChainId))
    (deps : nat * option ChainId) : bool :=
  match prevDeps with
  | None => true
  | Some prev => negb (bool_decide (prev = deps))
  end.

(** One render pass: the state the hook returns and what its effect
    dispatches. *)
Definition useDefaultsFromURLSearch (prevDeps : option (nat * option ChainId))
    (u : UrlRender ChainId) : completion (SwapState * option ReplaceSwapState.t) :=
  parsedSwapState ← queryParametersToSwapState isAddress (useParsedQueryString u);
  mret (parsedSwapState,
        if effectRuns prevDeps (effectDeps u)
        then seedEffect (useChainId u) parsedSwapState
        else None).

(** The render passes of one mounted component, in order. *)
Fixpoint renderPasses (prevDeps : option (nat * option ChainId))
    (passes : list (UrlRender ChainId))
    : completion (list (SwapState * option ReplaceSwapState.t)) :=
  match passes with
  | [] => mret []
  | u :: rest =>
      x ← useDefaultsFromURLSearch prevDeps u;
      xs ← renderPasses (Some (effectDeps u)) rest;
      mret (x :: xs)
  end.

Definition mount (passes : list (UrlRender ChainId))
    : completion (list (SwapState * option ReplaceSwapState.t)) :=
  renderPasses None passes.

End Defaults.

(** * Properties *)

(** ** Runs of the model on concrete inputs *)

Example parseFloat_prefix :
  JsNumber.parseFloat "  -12.5e3abc" = JsNumber.DecimalLit true "12.5e3".
Proof. reflexivity. Qed.

Example parseFloat_lone_dot : JsNumber.parseFloat "." = JsNumber.NaN.
Proof. reflexivity. Qed.

Example parseFloat_open_exponent :
  JsNumber.parseFloat "7e+" = JsNumber.DecimalLit false "7".
Proof. reflexivity. Qed.

Example parseFloat_word : JsNumber.parseFloat "abc1" = JsNumber.NaN.
Proof. reflexivity. Qed.

Example ens_name : Regex.regex_test ENS_NAME_REGEX "alice.apt" = true.
Proof. reflexivity. Qed.

Example ens_name_path : Regex.regex_test ENS_NAME_REGEX "alice.apt/path?x=1" = true.
Proof. reflexivity. Qed.

Example ens_name_parens : Regex.regex_test ENS_NAME_REGEX "alice.()" = false.
Proof. reflexivity. Qed.

Example ens_name_long_suffix : Regex.regex_test ENS_NAME_REGEX "a.toolongtld" = false.
Proof. reflexivity. Qed.

Example ens_name_backtrack : Regex.regex_test ENS_NAME_REGEX "a.b.c.d.toolongtld" = true.
Proof. reflexivity. Qed.

Example address_40 :
  Regex.regex_test ADDRESS_REGEX "0x0123456789abcdefABCDEF0123456789abcdef01" = true.
Proof. reflexivity. Qed.

Example address_short : Regex.regex_test ADDRESS_REGEX "0x1" = false.
Proof. reflexivity. Qed.

Example lower_mixed : JsString.toLowerCase "OutPUT" = "output".
Proof. reflexivity. Qed.

(** ** Regular expressions: the matcher decides the declarative reading *)

Section RegexFacts.

Import Regex.

Lemma lastOr_nil prev : lastOr prev [] = prev.
Proof. reflexivity. Qed.

Lemma lastOr_cons prev c run : lastOr prev (c :: run) = lastOr (Some c) run.
Proof.
  unfold lastOr. destruct run as [|d run]; [reflexivity|].
  change (last (c :: d :: run)) with (last (d :: run)).
  destruct (last (d :: run)) eqn:E; [reflexivity|].
  destruct (last_is_Some (d :: run)) as [_ Hs].
  rewrite E in Hs. destruct Hs as [x Hx]; [discriminate|discriminate].
Qed.

Lemma within_zero lo hi : within lo hi 0 <-> lo = 0.
Proof. unfold within. split; [lia|]. intros ->. split; [lia|]. intros; lia. Qed.

Lemma within_succ lo hi n :
  within lo hi (S n) <-> more hi = true /\ within (Nat.pred lo) (decr hi) n.
Proof.
  unfold within, more, decr. destruct hi as [m|]; simpl.
  - rewrite Nat.ltb_lt. split.
    + intros [Hlo Hhi]. specialize (Hhi m eq_refl). repeat split; try lia.
      intros k [= <-]. lia.
    + intros (Hm & Hlo & Hhi). specialize (Hhi _ eq_refl). split; [lia|].
      intros k [= <-]. lia.
  - split.
    + intros [Hlo _]. repeat split; try lia. intros k [=].
    + intros (_ & Hlo & _). split; [lia|]. intros k [=].
Qed.

Lemma rep_spec cls k lo hi prev s :
  rep cls k lo hi prev s = true <->
  exists run rest,
    s = run ++ rest /\ within lo hi (length run)
    /\ Forall (fun c => cls c = true) run
    /\ k (lastOr prev run) rest = true.
Proof.
  revert lo hi prev. induction s as [|c s IH]; intros lo hi prev; simpl.
  - rewrite orb_false_r, andb_true_iff, Nat.eqb_eq. split.
    + intros [-> Hk]. exists [], []. rewrite within_zero. auto.
    + intros (run & rest & Hs & Hw & _ & Hk).
      symmetry in Hs. apply app_eq_nil in Hs as [-> ->].
      apply within_zero in Hw. auto.
  - rewrite orb_true_iff, !andb_true_iff, Nat.eqb_eq, IH. split.
    + intros [[-> Hk] | [[Hm Hc] (run & rest & -> & Hw & Hall & Hk)]].
      * exists [], (c :: s). rewrite within_zero. auto.
      * exists (c :: run), rest. rewrite lastOr_cons. simpl.
        rewrite within_succ. auto.
    + intros (run & rest & Hs & Hw & Hall & Hk). destruct run as [|d run].
      * left. simpl in Hs. subst rest. apply within_zero in Hw. auto.
      * right. simpl in Hs. injection Hs as <- ->.
        simpl in Hw. apply within_succ in Hw as [Hm Hw].
        apply Forall_cons in Hall as [Hd Hall]. rewrite lastOr_cons in Hk.
        split; [auto|]. exists run, rest. auto.
Qed.

Lemma matchFrom_spec r prev s : matchFrom r prev s = true <-> Matches r prev s.
Proof.
  revert prev s. induction r as [|a r IH]; intros prev s.
  - simpl. destruct s; split; intros Hm; try discriminate; try constructor.
    inversion Hm.
  - destruct a as [cls lo hi|]; simpl.
    + rewrite rep_spec. split.
      * intros (run & rest & -> & Hw & Hall & Hk).
        apply Matches_chars; auto. apply IH, Hk.
      * intros Hm. inversion Hm; subst.
        eexists _, _. split; [reflexivity|]. split; [eassumption|].
        split; [eassumption|]. apply IH. eassumption.
    + rewrite andb_true_iff, IH. split.
      * intros [Hb Hm]. constructor; assumption.
      * intros Hm. inversion Hm; subst. auto.
Qed.

Lemma Matches_nil_iff prev s : Matches [] prev s <-> s = [].
Proof.
  split; [intros Hm; inversion Hm; reflexivity | intros ->; constructor].
Qed.

Lemma Matches_chars_iff cls lo hi r prev s :
  Matches (Chars cls lo hi :: r) prev s <->
  exists run rest,
    s = run ++ rest /\ within lo hi (length run)
    /\ Forall (fun c => cls c = true) run
    /\ Matches r (lastOr prev run) rest.
Proof.
  split.
  - intros Hm. inversion Hm; subst. eauto 10.
  - intros (run & rest & -> & Hw & Hall & Hk). constructor; assumption.
Qed.

Lemma Matches_boundary_iff r prev s :
  Matches (WordBoundary :: r) prev s <->
  boundary prev (head s) = true /\ Matches r prev s.
Proof.
  split.
  - intros Hm. inversion Hm; subst. auto.
  - intros [Hb Hm]. constructor; assumption.
Qed.

Lemma Matches_lit_iff c r prev s :
  Matches (lit c :: r) prev s <->
  exists rest, s = c :: rest /\ Matches r (Some c) rest.
Proof.
  unfold lit. rewrite Matches_chars_iff. split.
  - intros (run & rest & -> & [Hlo Hhi] & Hall & Hm).
    specialize (Hhi 1 eq_refl).
    destruct run as [|d [|e run]]; simpl in Hlo, Hhi; try lia.
    apply Forall_cons in Hall as [Hd _]. apply Ascii.eqb_eq in Hd. subst d.
    exists rest. auto.
  - intros (rest & -> & Hm). exists [c], rest. repeat split; simpl; auto.
    + intros m [= <-]. lia.
    + repeat constructor. apply Ascii.eqb_refl.
Qed.

(** X1: [ADDRESS_REGEX] accepts exactly [0x] followed by forty hexadecimal
    digits. *)
Lemma ADDRESS_REGEX_spec s :
  regex_test ADDRESS_REGEX s = true <->
  exists h,
    list_ascii_of_string s = "0"%char :: "x"%char :: h
    /\ length h = 40
    /\ Forall (fun c => JsString.isHex c = true) h.
Proof.
  unfold regex_test, ADDRESS_REGEX. rewrite matchFrom_spec.
  rewrite Matches_lit_iff. setoid_rewrite Matches_lit_iff.
  setoid_rewrite Matches_chars_iff. setoid_rewrite Matches_nil_iff.
  split.
  - intros (r1 & -> & r2 & -> & run & rest & -> & [Hlo Hhi] & Hall & ->).
    specialize (Hhi 40 eq_refl). exists run. rewrite app_nil_r.
    repeat split; auto; lia.
  - intros (h & -> & Hlen & Hall).
    eexists; split; [reflexivity|]. eexists; split; [reflexivity|].
    exists h, []. rewrite app_nil_r. repeat split; auto; try lia.
    intros m [= <-]. lia.
Qed.

(** X2: [ENS_NAME_REGEX] accepts exactly a name of 1 to 256 name characters, a
    dot, a suffix of 1 to 6 letters, digits or parentheses that ends at a
    word boundary, and any tail of tail characters. *)
Lemma ENS_NAME_REGEX_spec s :
  regex_test ENS_NAME_REGEX s = true <->
  exists name suffix tail,
    list_ascii_of_string s = name ++ "."%char :: suffix ++ tail
    /\ 1 <= length name <= 256
    /\ Forall (fun c => nameChar c = true) name
    /\ 1 <= length suffix <= 6
    /\ Forall (fun c => suffixChar c = true) suffix
    /\ boundary (last suffix) (head tail) = true
    /\ Forall (fun c => tailChar c = true) tail.
Proof.
  unfold regex_test, ENS_NAME_REGEX. rewrite matchFrom_spec.
  rewrite Matches_chars_iff. split.
  - intros (name & r1 & -> & [Hlo Hhi] & Hname & Hm).
    specialize (Hhi _ eq_refl).
    apply Matches_lit_iff in Hm as (r2 & -> & Hm).
    apply Matches_chars_iff in Hm as (suffix & r3 & -> & [Hlo' Hhi'] & Hsuf & Hm).
    specialize (Hhi' _ eq_refl).
    apply Matches_boundary_iff in Hm as [Hb Hm].
    apply Matches_chars_iff in Hm as (tail & r4 & -> & _ & Htail & Hm).
    apply Matches_nil_iff in Hm as ->. rewrite app_nil_r in *.
    exists name, suffix, tail. repeat split; auto.
    unfold lastOr in Hb. destruct suffix as [|c suffix]; [simpl in Hlo'; lia|].
    destruct (last (c :: suffix)) eqn:E; [assumption|].
    destruct (last_is_Some (c :: suffix)) as [_ Hs].
    rewrite E in Hs. destruct Hs as [x Hx]; discriminate.
  - intros (name & suffix & tail & -> & [Hn1 Hn2] & Hname & [Hs1 Hs2] & Hsuf & Hb & Htail).
    exists name, ("."%char :: suffix ++ tail). repeat split; auto.
    + intros m [= <-]. assumption.
    + apply Matches_lit_iff. eexists; split; [reflexivity|].
      apply Matches_chars_iff. exists suffix, tail. repeat split; auto.
      * intros m [= <-]. assumption.
      * apply Matches_boundary_iff. split.
        -- unfold lastOr. destruct (last suffix) eqn:E; [assumption|].
           apply last_None in E. subst suffix. simpl in Hs1. lia.
        -- apply Matches_chars_iff. exists tail, []. rewrite app_nil_r.
           repeat split; auto; try lia.
           ++ intros m [=].
           ++ constructor.
Qed.

End RegexFacts.

(** ** [parseFloat] and [toLowerCase] *)

Section StringFacts.

Import JsString JsNumber.

Lemma span_head_false p c l : p c = false -> span p (c :: l) = ([], c :: l).
Proof. intros Hp. simpl. rewrite Hp. reflexivity. Qed.

Lemma span_head_true p c l :
  p c = true -> exists a b, span p (c :: l) = (c :: a, b).
Proof.
  intros Hp. simpl. rewrite Hp. destruct (span p l) as [a b]. eauto.
Qed.

Lemma span_nil_head p l :
  (fst (span p l) = []) <-> from_option p false (head l) = false.
Proof.
  destruct l as [|c l]; simpl; [tauto|].
  destruct (p c); [|tauto]. destruct (span p l). simpl. split; discriminate.
Qed.

(** No unsigned literal is read exactly when the text starts neither with a
    digit nor with a dot and a digit. *)
Lemma unsignedLiteral_None body :
  unsignedLiteral body = None <->
  match body with
  | c :: rest =>
      isDigit c || (Ascii.eqb c "." && from_option isDigit false (head rest)) = false
  | [] => True
  end.
Proof.
  destruct body as [|c rest]; [simpl; tauto|].
  unfold unsignedLiteral. destruct (isDigit c) eqn:Hd.
  - destruct (span_head_true isDigit c rest Hd) as (a & b & ->). simpl.
    split; [|discriminate].
    destruct b as [|x b]; [discriminate|].
    destruct (Ascii.eqb_spec "."%char x) as [<-|Hx].
    + destruct (span isDigit b); discriminate.
    + destruct x as [[] [] [] [] [] [] [] []]; try discriminate.
      destruct (span isDigit b); discriminate.
  - rewrite span_head_false by assumption. simpl.
    destruct (Ascii.eqb_spec c ".") as [->|Hc].
    + pose proof (span_nil_head isDigit rest) as Hs.
      destruct (span isDigit rest) as [fp r'']. simpl in Hs.
      destruct fp as [|f fp].
      * split; [intros _; apply Hs; reflexivity | reflexivity].
      * split; [discriminate|]. intros Hh. apply Hs in Hh. discriminate.
    + split; [reflexivity|]. intros _.
      destruct c as [[] [] [] [] [] [] [] []]; try reflexivity.
      contradiction Hc. reflexivity.
Qed.

(** [parseFloat] gives a number exactly on the strings that start with
    one. *)
Lemma parseFloat_isNaN s : isNaN (parseFloat s) = negb (startsNumeric s).
Proof.
  unfold parseFloat, startsNumeric.
  generalize (trimStart (list_ascii_of_string s)). intros trimmed.
  assert (Hbody : forall negative body,
    isNaN (if startsWith (list_ascii_of_string "Infinity") body
           then Infinite negative
           else match unsignedLiteral body with
                | Some lit => DecimalLit negative (string_of_list_ascii lit)
                | None => NaN
                end)
    = negb match body with
           | c :: rest =>
               isDigit c
               || (Ascii.eqb c "." && from_option isDigit false (head rest))
               || startsWith (list_ascii_of_string "Infinity") body
           | [] => false
           end).
  { intros negative body.
    pose proof (unsignedLiteral_None body) as Hu.
    destruct body as [|c rest]; [reflexivity|].
    destruct (startsWith _ (c :: rest)); [rewrite orb_true_r; reflexivity|].
    rewrite orb_false_r.
    destruct (unsignedLiteral (c :: rest)).
    - simpl. destruct (_ || _); [reflexivity|].
      destruct Hu as [_ Hu]. discriminate (Hu eq_refl).
    - simpl. destruct Hu as [Hu _]. rewrite (Hu eq_refl). reflexivity. }
  destruct trimmed as [|c r]; [apply Hbody|].
  unfold isSign. destruct (oneOf "+-" c); apply Hbody.
Qed.

Lemma lowerChar_output c :
  Ascii.eqb (lowerChar c) "o" = sameLetter c "o"
  /\ Ascii.eqb (lowerChar c) "u" = sameLetter c "u"
  /\ Ascii.eqb (lowerChar c) "t" = sameLetter c "t"
  /\ Ascii.eqb (lowerChar c) "p" = sameLetter c "p".
Proof.
  destruct c as [[] [] [] [] [] [] [] []]; vm_compute; repeat split.
Qed.

(** Lower-casing gives [output] exactly on the strings equal to it up to
    case. *)
Lemma toLowerCase_output s :
  String.eqb (toLowerCase s) "output" = equalsIgnoreCase s "output".
Proof.
  destruct s as [|c1 [|c2 [|c3 [|c4 [|c5 [|c6 [|c7 s]]]]]]];
    cbn [toLowerCase equalsIgnoreCase String.eqb];
    repeat match goal with
    | |- context [Ascii.eqb (lowerChar ?c) _] =>
        destruct (lowerChar_output c) as (Ho & Hu & Ht & Hp);
        rewrite ?Ho, ?Hu, ?Ht, ?Hp; clear Ho Hu Ht Hp
    end;
    repeat match goal with
    | |- context [sameLetter ?a ?b] => destruct (sameLetter a b)
    end;
    reflexivity.
Qed.

End StringFacts.

(** ** The URL state parser *)

Section UrlStateFacts.

Variable isAddress : option string -> option string.

Local Abbreviation parse := (queryParametersToSwapState isAddress).
Local Abbreviation parseCurrency := (parseCurrencyFromURLParameter isAddress).

(** The guard on the type protects the method call: the field parser always
    returns, and returns OUTPUT exactly on a string equal to [output] up to
    case. *)
Lemma parseIndependentField_normal v :
  parseIndependentFieldURLParameter v =
  Normal match v with
         | QString s =>
             if equalsIgnoreCase s "output" then Field.OUTPUT else Field.INPUT
         | _ => Field.INPUT
         end.
Proof.
  destruct v; try reflexivity.
  cbn. rewrite toLowerCase_output. destruct (equalsIgnoreCase s "output"); reflexivity.
Qed.

(** The parser returns a state, field by field. *)
Lemma queryParameters_fields q :
  exists st,
    parse q = Normal st
    /\ typedValue st = parseTokenAmountURLParameter (prop q "exactAmount")
    /\ parseIndependentFieldURLParameter (prop q "exactField")
       = Normal (independentField st)
    /\ recipient st = validatedRecipient isAddress (prop q "recipient")
    /\ (currencyId (INPUT st), currencyId (OUTPUT st)) =
       let i := parseCurrency (prop q "inputCurrency") in
       let o := parseCurrency (prop q "outputCurrency") in
       if String.eqb i "" && String.eqb o "" && String.eqb (typedValue st) ""
          && Field.eqb (independentField st) Field.INPUT
       then (Some APT, None)
       else if String.eqb i o then (nullIfEmpty i, None)
       else (nullIfEmpty i, nullIfEmpty o).
Proof.
  unfold queryParametersToSwapState.
  rewrite (parseIndependentField_normal (prop q "exactField")).
  cbn [mbind completion_bind mret completion_ret].
  set (i := parseCurrency (prop q "inputCurrency")).
  set (o := parseCurrency (prop q "outputCurrency")).
  set (v := parseTokenAmountURLParameter (prop q "exactAmount")).
  set (f := match prop q "exactField" with
            | QString s => _
            | _ => _
            end).
  destruct (String.eqb i "" && String.eqb o "" && String.eqb v ""
            && Field.eqb f Field.INPUT) eqn:Hdef.
  - eexists. split; [reflexivity|]. cbn. rewrite Hdef.
    repeat split.
    apply andb_prop in Hdef as [Hdef _]. apply andb_prop in Hdef as [Hdef _].
    apply andb_prop in Hdef as [_ Ho]. apply String.eqb_eq in Ho.
    rewrite Ho. reflexivity.
  - destruct (String.eqb i o) eqn:Hio.
    + eexists. split; [reflexivity|]. cbn. rewrite ?Hdef, ?Hio. repeat split.
    + eexists. split; [reflexivity|]. cbn. rewrite ?Hdef, ?Hio. repeat split.
Qed.

(** C3: on the empty query the parser returns the native asset as input
    currency, no output currency, an empty typed value, INPUT as independent
    field and no recipient; and whenever the two parsed currencies and the
    parsed amount are empty and the parsed field is INPUT, the input currency
    of the returned state is the native asset. *)
Theorem queryParametersToSwapState_default :
  parse ∅ =
    Normal {| INPUT := {| currencyId := Some "0x1::aptos_coin::AptosCoin" |};
              OUTPUT := {| currencyId := None |};
              typedValue := "";
              independentField := Field.INPUT;
              recipient := None |}
  /\ forall q,
       parseCurrency (prop q "inputCurrency") = "" ->
       parseCurrency (prop q "outputCurrency") = "" ->
       parseTokenAmountURLParameter (prop q "exactAmount") = "" ->
       parseIndependentFieldURLParameter (prop q "exactField") = Normal Field.INPUT ->
       exists st,
         parse q = Normal st
         /\ currencyId (INPUT st) = Some "0x1::aptos_coin::AptosCoin"
         /\ currencyId (OUTPUT st) = None
         /\ typedValue st = ""
         /\ independentField st = Field.INPUT.
Proof.
  split; [reflexivity|].
  intros q Hi Ho Hv Hf.
  destruct (queryParameters_fields q) as (st & Hst & Htv & Hfld & _ & Hcur).
  exists st. rewrite Hv in Htv. rewrite Hf in Hfld. injection Hfld as Hfld.
  rewrite Hi, Ho, Htv, <- Hfld in Hcur. cbn in Hcur.
  injection Hcur as Hin Hout. auto.
Qed.

(** C4: when the [inputCurrency] and [outputCurrency] parameters are strings
    that the validator resolves to one same non-empty address, the returned
    state has no output currency and keeps the address as input currency. *)
Theorem queryParametersToSwapState_collision q s1 s2 a :
  prop q "inputCurrency" = QString s1 ->
  prop q "outputCurrency" = QString s2 ->
  isAddress (Some s1) = Some a ->
  isAddress (Some s2) = Some a ->
  a <> "" ->
  exists st,
    parse q = Normal st
    /\ currencyId (OUTPUT st) = None
    /\ currencyId (INPUT st) = Some a.
Proof.
  intros Hq1 Hq2 H1 H2 Ha.
  destruct (queryParameters_fields q) as (st & Hst & _ & _ & _ & Hcur).
  exists st. split; [assumption|].
  apply String.eqb_neq in Ha.
  assert (Hp : forall s, isAddress (Some s) = Some a ->
                         parseCurrency (QString s) = a).
  { intros s Hs. unfold parseCurrencyFromURLParameter. rewrite Hs. cbn.
    rewrite Ha. reflexivity. }
  rewrite Hq1, Hq2, (Hp _ H1), (Hp _ H2) in Hcur. cbn in Hcur.
  rewrite Ha, String.eqb_refl in Hcur. cbn in Hcur.
  unfold nullIfEmpty in Hcur. rewrite Ha in Hcur.
  injection Hcur as Hin Hout. auto.
Qed.

(** C5: the returned recipient is not null exactly when the [recipient]
    parameter is a string that the address validator accepts, or that
    matches the name pattern, or that matches the 40-hex-digit address
    pattern. *)
Theorem queryParametersToSwapState_recipient q :
  exists st,
    parse q = Normal st
    /\ (recipient st <> None <->
        exists s,
          prop q "recipient" = QString s
          /\ (truthy (isAddress (Some s)) = true
              \/ Regex.regex_test ENS_NAME_REGEX s = true
              \/ Regex.regex_test ADDRESS_REGEX s = true)).
Proof.
  destruct (queryParameters_fields q) as (st & Hst & _ & _ & Hrec & _).
  exists st. split; [assumption|]. rewrite Hrec.
  destruct (prop q "recipient") as [|s| | |]; unfold validatedRecipient;
    try (split; [congruence | intros (s' & [=] & _)]).
  cbv zeta.
  destruct (truthy (isAddress (Some s))) eqn:Ht; cbv iota.
  - split; [eauto|]. intros _ Hn. rewrite Hn in Ht. discriminate.
  - destruct (Regex.regex_test ENS_NAME_REGEX s) eqn:He; cbv iota.
    + split; [eauto|]. intros _. discriminate.
    + destruct (Regex.regex_test ADDRESS_REGEX s) eqn:Ha; cbv iota.
      * split; [eauto 6|]. intros _. discriminate.
      * split; [congruence|].
        intros (s' & [= <-] & [Hc | [Hc | Hc]]); congruence.
Qed.

(** C6, as the code has it: the typed value is the [exactAmount] parameter
    when it is a string that starts with a number (after leading white space
    and an optional sign: a digit, a dot and a digit, or [Infinity]), and the
    empty string for every other string and every value that is not a
    string. *)
Theorem queryParametersToSwapState_typedValue q :
  exists st,
    parse q = Normal st
    /\ typedValue st =
       match prop q "exactAmount" with
       | QString s => if startsNumeric s then s else ""
       | _ => ""
       end.
Proof.
  destruct (queryParameters_fields q) as (st & Hst & Htv & _).
  exists st. split; [assumption|]. rewrite Htv.
  destruct (prop q "exactAmount"); try reflexivity.
  cbn. rewrite parseFloat_isNaN, negb_involutive. reflexivity.
Qed.

(** C7: the independent field of the returned state is OUTPUT exactly when
    the [exactField] parameter is a string equal to [output] up to case, and
    INPUT for every other value. *)
Theorem queryParametersToSwapState_independentField q :
  exists st,
    parse q = Normal st
    /\ (independentField st = Field.OUTPUT <->
        exists s, prop q "exactField" = QString s
                  /\ equalsIgnoreCase s "output" = true)
    /\ (independentField st = Field.INPUT <->
        ~ exists s, prop q "exactField" = QString s
                    /\ equalsIgnoreCase s "output" = true).
Proof.
  destruct (queryParameters_fields q) as (st & Hst & _ & Hfld & _).
  exists st. split; [assumption|].
  rewrite parseIndependentField_normal in Hfld. injection Hfld as Hfld.
  rewrite <- Hfld.
  destruct (prop q "exactField") as [|s| | |];
    try (split; split; [discriminate | intros (s' & [=] & _)
                       | intros _ (s' & [=] & _) | reflexivity]).
  destruct (equalsIgnoreCase s "output") eqn:He.
  - split; split; eauto; try discriminate.
    intros Hn. contradiction Hn. eauto.
  - split; split; try discriminate; try reflexivity.
    + intros (s' & [= <-] & Hc). congruence.
    + intros _ (s' & [= <-] & Hc). congruence.
Qed.

(** C8: the parser returns a state on every parsed query and never throws;
    each of the four parameter parsers gives its default (the empty string,
    null, or INPUT) on a value that is not a string and on a string that
    fails its validation, and these defaults reach the returned state: an
    empty typed value, a null recipient, a null output currency, and an input
    currency that is null or, under the default policy, the native asset. *)
Theorem queryParametersToSwapState_total q :
  exists st,
    parse q = Normal st
    /\ (forall v, typeof v <> TString ->
          parseCurrency v = ""
          /\ parseTokenAmountURLParameter v = ""
          /\ parseIndependentFieldURLParameter v = Normal Field.INPUT
          /\ validatedRecipient isAddress v = None)
    /\ (forall v, exists f, parseIndependentFieldURLParameter v = Normal f)
    /\ (forall s, truthy (isAddress (Some s)) = false ->
          parseCurrency (QString s) = "")
    /\ (forall s, JsNumber.isNaN (JsNumber.parseFloat s) = true ->
          parseTokenAmountURLParameter (QString s) = "")
    /\ (forall s, truthy (isAddress (Some s)) = false ->
          Regex.regex_test ENS_NAME_REGEX s = false ->
          Regex.regex_test ADDRESS_REGEX s = false ->
          validatedRecipient isAddress (QString s) = None)
    /\ typedValue st = parseTokenAmountURLParameter (prop q "exactAmount")
    /\ recipient st = validatedRecipient isAddress (prop q "recipient")
    /\ (parseCurrency (prop q "outputCurrency") = "" ->
        currencyId (OUTPUT st) = None)
    /\ (parseCurrency (prop q "inputCurrency") = "" ->
        currencyId (INPUT st) = None
        \/ currencyId (INPUT st) = Some "0x1::aptos_coin::AptosCoin").
Proof.
  destruct (queryParameters_fields q) as (st & Hst & Htv & Hfld & Hrec & Hcur).
  exists st. split; [assumption|].
  split.
  { intros v Hv. destruct v; try contradiction; repeat split. }
  split.
  { intros v. rewrite parseIndependentField_normal. eauto. }
  split.
  { intros s Hs. unfold parseCurrencyFromURLParameter.
    destruct (isAddress (Some s)); [|reflexivity]. rewrite Hs. reflexivity. }
  split.
  { intros s Hs. unfold parseTokenAmountURLParameter. rewrite Hs. reflexivity. }
  split.
  { intros s Ha He Hr. unfold validatedRecipient. cbv zeta.
    rewrite Ha, He, Hr. reflexivity. }
  split; [assumption|]. split; [assumption|].
  cbv zeta in Hcur.
  set (i := parseCurrency (prop q "inputCurrency")) in *.
  set (o := parseCurrency (prop q "outputCurrency")) in *.
  destruct (String.eqb i "" && String.eqb o "" && String.eqb (typedValue st) ""
            && Field.eqb (independentField st) Field.INPUT).
  - injection Hcur as Hin Hout. auto.
  - destruct (String.eqb i o) eqn:Hio; injection Hcur as Hin Hout.
    + split; [auto|]. intros ->. auto.
    + split; [intros Ho | intros Hi].
      * rewrite Hout, Ho. reflexivity.
      * left. rewrite Hin, Hi. reflexivity.
Qed.

End UrlStateFacts.

(** Witness of C3: a query whose only parameters are a currency that is not
    an address and a recipient. *)
Lemma queryParametersToSwapState_default_witness :
  exists st,
    queryParametersToSwapState Sample.isAddress
      {[ "inputCurrency" := QString "apt"; "recipient" := QString "alice.apt" ]}
    = Normal st
    /\ currencyId (INPUT st) = Some "0x1::aptos_coin::AptosCoin"
    /\ currencyId (OUTPUT st) = None
    /\ typedValue st = ""
    /\ independentField st = Field.INPUT.
Proof.
  apply (proj2 (queryParametersToSwapState_default Sample.isAddress));
    vm_compute; reflexivity.
Defined.

(** Witness of C4: the same address as input and output currency. *)
Lemma queryParametersToSwapState_collision_witness :
  exists st,
    queryParametersToSwapState Sample.isAddress
      {[ "inputCurrency" := QString "0x1::usdt::USDT";
         "outputCurrency" := QString "0x1::usdt::USDT" ]}
    = Normal st
    /\ currencyId (OUTPUT st) = None
    /\ currencyId (INPUT st) = Some "0x1::usdt::USDT".
Proof.
  apply (queryParametersToSwapState_collision Sample.isAddress _
           "0x1::usdt::USDT" "0x1::usdt::USDT" "0x1::usdt::USDT");
    try (vm_compute; reflexivity).
  discriminate.
Defined.

(** C6 fails as stated: the parameter [Infinity] is kept as typed value
    although it does not parse as a finite number. *)
Lemma typedValue_keeps_Infinity :
  queryParametersToSwapState Sample.isAddress
    {[ "exactAmount" := QString "Infinity" ]}
  = Normal {| INPUT := {| currencyId := None |};
              OUTPUT := {| currencyId := None |};
              typedValue := "Infinity";
              independentField := Field.INPUT;
              recipient := None |}
  /\ JsNumber.parseFloat "Infinity" = JsNumber.Infinite false
  /\ isFiniteLiteral (JsNumber.parseFloat "Infinity") = false.
Proof. vm_compute. repeat split. Qed.

(** The same holds for a number followed by other text. *)
Example typedValue_keeps_trailing_text :
  exists st,
    queryParametersToSwapState Sample.isAddress
      {[ "exactAmount" := QString "12abc" ]} = Normal st
    /\ typedValue st = "12abc"
    /\ JsNumber.parseFloat "12abc" = JsNumber.DecimalLit false "12".
Proof. eexists. vm_compute. repeat split. Qed.

(** Witness of C8: arrays and nested objects in every position. *)
Lemma queryParametersToSwapState_total_witness :
  exists st,
    queryParametersToSwapState Sample.isAddress
      {[ "inputCurrency" := QStringArray ["0x1"; "0x2"];
         "outputCurrency" := QObject {[ "a" := QString "0x1" ]};
         "exactAmount" := QObjectArray [∅];
         "exactField" := QStringArray ["output"];
         "recipient" := QObject ∅ ]}
    = Normal st
    /\ typedValue st = "" /\ recipient st = None
    /\ currencyId (OUTPUT st) = None
    /\ currencyId (INPUT st) = Some "0x1::aptos_coin::AptosCoin".
Proof.
  destruct (queryParametersToSwapState_total Sample.isAddress
    {[ "inputCurrency" := QStringArray ["0x1"; "0x2"];
       "outputCurrency" := QObject {[ "a" := QString "0x1" ]};
       "exactAmount" := QObjectArray [∅];
       "exactField" := QStringArray ["output"];
       "recipient" := QObject ∅ ]})
    as (st & Hst & _ & _ & _ & _ & _ & Htv & Hrec & Hout & Hin).
  exists st. split; [exact Hst|].
  split; [rewrite Htv; vm_compute; reflexivity|].
  split; [rewrite Hrec; vm_compute; reflexivity|].
  split; [apply Hout; vm_compute; reflexivity|].
  vm_compute in Hst. injection Hst as <-. reflexivity.
Defined.

(** ** Action handlers *)

(** C9: switching the tokens twice gives back the INPUT and OUTPUT
    currencies and the independent field of the state it started from. *)
Theorem onSwitchTokens_involution (st : SwapState) :
  currencyId (INPUT (onSwitchTokens (onSwitchTokens st))) = currencyId (INPUT st)
  /\ currencyId (OUTPUT (onSwitchTokens (onSwitchTokens st))) = currencyId (OUTPUT st)
  /\ independentField (onSwitchTokens (onSwitchTokens st)) = independentField st.
Proof.
  destruct st as [i o v f r]. cbn. destruct f; repeat split.
Qed.

(** One switch exchanges the two currencies and flips the independent
    field. *)
Lemma onSwitchTokens_swaps (st : SwapState) :
  currencyId (INPUT (onSwitchTokens st)) = currencyId (OUTPUT st)
  /\ currencyId (OUTPUT (onSwitchTokens st)) = currencyId (INPUT st)
  /\ independentField (onSwitchTokens st) = Field.other (independentField st)
  /\ typedValue (onSwitchTokens st) = typedValue st
  /\ recipient (onSwitchTokens st) = recipient st.
Proof. repeat split. Qed.

(** ** The input error of the derived swap information *)

Section DerivationFacts.

Context `{Sdk}.
Variable isAddress : option string -> option string.
Variable tryParseCoinAmount : string -> option Coin -> option Decimal.
Variable r : Render.

Local Abbreviation quoted := (trade tryParseCoinAmount r).
Local Abbreviation error := (inputError isAddress tryParseCoinAmount r).
Local Abbreviation derived := (useDerivedSwapInfo isAddress tryParseCoinAmount r).

(** The balance check of the callback fires: an input balance and the
    maximum input of a quote both exist and [balance < maximum] holds. *)
Local Abbreviation shortfall :=
  (exists b t,
     coinBalances r Field.INPUT = Some b
     /\ TradeResult.trade quoted = Some t
     /\ lt b (maximumAmountIn t) = true).

(** The hook returns exactly when the callback does, with its result. *)
Lemma useDerivedSwapInfo_inputError e :
  (exists info, derived = Normal info /\ DerivedSwapInfo.inputError info = e)
  <-> error = Normal e.
Proof.
  unfold useDerivedSwapInfo. destruct error as [e'|x]; cbn.
  - split.
    + intros (info & [= <-] & He). cbn in He. congruence.
    + intros [= ->]. eexists. split; reflexivity.
  - split; [intros (info & [=] & _) | discriminate].
Qed.

(** When the balance check fires on a resolved input coin, its message is
    the result, whatever the earlier statements had set. *)
Lemma inputError_shortfall c b t :
  inputCoin r = Some c ->
  coinBalances r Field.INPUT = Some b ->
  TradeResult.trade quoted = Some t ->
  lt b (maximumAmountIn t) = true ->
  error = Normal (Some (Trans ("Insufficient " ++ symbol c ++ " balance"))).
Proof.
  intros Hc Hb Ht Hlt. unfold inputError.
  rewrite Hb, Ht. cbn. rewrite Hlt, Hc. cbn.
  destruct (isNoRouteFound _); reflexivity.
Qed.

(** When the balance check fires on an input coin that is not resolved,
    reading its symbol throws. *)
Lemma inputError_shortfall_null b t :
  inputCoin r = None ->
  coinBalances r Field.INPUT = Some b ->
  TradeResult.trade quoted = Some t ->
  lt b (maximumAmountIn t) = true ->
  error = Throw TypeError.
Proof.
  intros Hc Hb Ht Hlt. unfold inputError.
  rewrite Hb, Ht. cbn. rewrite Hlt, Hc. reflexivity.
Qed.

(** The balance check overwrites: when it fires on a resolved input coin,
    the hook returns the insufficient-balance message of that coin whatever
    the account, the output coin, the parsed amount and the recipient
    are. *)
Theorem insufficient_balance_overwrites c b t :
  inputCoin r = Some c ->
  coinBalances r Field.INPUT = Some b ->
  TradeResult.trade quoted = Some t ->
  lt b (maximumAmountIn t) = true ->
  exists info,
    derived = Normal info
    /\ DerivedSwapInfo.inputError info
       = Some (Trans ("Insufficient " ++ symbol c ++ " balance")).
Proof.
  intros Hc Hb Ht Hlt. apply useDerivedSwapInfo_inputError.
  eapply inputError_shortfall; eassumption.
Qed.

(** C2, as the code has it: without a connected account the input error is
    [Connect Wallet] exactly when the balance check of the callback does not
    fire.  When it fires, the insufficient-balance message of the input coin
    replaces [Connect Wallet]; on an input coin that is not resolved the
    hook throws instead of returning a message. *)
Theorem connect_wallet_unless_shortfall :
  truthy (account r) = false ->
  ((exists info,
      derived = Normal info
      /\ DerivedSwapInfo.inputError info = Some (Trans "Connect Wallet"))
   <-> ~ shortfall)
  /\ (forall c,
        inputCoin r = Some c ->
        shortfall ->
        exists info,
          derived = Normal info
          /\ DerivedSwapInfo.inputError info
             = Some (Trans ("Insufficient " ++ symbol c ++ " balance")))
  /\ (inputCoin r = None -> shortfall -> derived = Throw TypeError).
Proof.
  intros Ha.
  assert (Hcw : ~ shortfall -> error = Normal (Some (Trans "Connect Wallet"))).
  { intros Hno. unfold inputError. rewrite Ha. cbn [negb].
    assert (Hkeep : forall (b : bool) (e : ReactNode),
      (if b then nullish (Some (Trans "Connect Wallet")) e
       else Some (Trans "Connect Wallet")) = Some (Trans "Connect Wallet")).
    { intros [] e; reflexivity. }
    cbv zeta. rewrite !Hkeep.
    destruct (coinBalances r Field.INPUT) as [b|] eqn:Hb;
      destruct (TradeResult.trade quoted) as [t|] eqn:Ht; cbn;
      try (destruct (isNoRouteFound _); reflexivity).
    destruct (lt b (maximumAmountIn t)) eqn:Hlt; cbn;
      [|destruct (isNoRouteFound _); reflexivity].
    contradiction Hno. eauto. }
  split; [split|split].
  - intros Hshow (b & t & Hb & Ht & Hlt).
    apply useDerivedSwapInfo_inputError in Hshow.
    destruct (inputCoin r) as [c|] eqn:Hc.
    + rewrite (inputError_shortfall c b t Hc Hb Ht Hlt) in Hshow.
      cbv [String.append] in Hshow. discriminate Hshow.
    + rewrite (inputError_shortfall_null b t Hc Hb Ht Hlt) in Hshow.
      discriminate Hshow.
  - intros Hno. apply useDerivedSwapInfo_inputError, Hcw, Hno.
  - intros c Hc (b & t & Hb & Ht & Hlt). apply useDerivedSwapInfo_inputError.
    eapply inputError_shortfall; eassumption.
  - intros Hc (b & t & Hb & Ht & Hlt). unfold useDerivedSwapInfo.
    rewrite (inputError_shortfall_null b t Hc Hb Ht Hlt). reflexivity.
Qed.

(** X19: the hook returns with no input error exactly when an account is
    connected, both coins are resolved, the typed value parses to an amount,
    the recipient is set and is a valid address, the balance check of the
    callback does not fire, and the state of the quote is not
    NO_ROUTE_FOUND. *)
Theorem inputError_undefined_iff :
  (exists info, derived = Normal info /\ DerivedSwapInfo.inputError info = None)
  <->
  truthy (account r) = true
  /\ coins r Field.INPUT <> None
  /\ coins r Field.OUTPUT <> None
  /\ parsedAmount tryParseCoinAmount r <> None
  /\ (truthy (to r) = true /\ truthy (isAddress (to r)) = true)
  /\ ~ shortfall
  /\ TradeResult.state quoted <> NO_ROUTE_FOUND.
Proof.
  rewrite useDerivedSwapInfo_inputError. unfold inputError, coins.
  destruct (truthy (account r)) eqn:Ha;
    destruct (inputCoin r) as [ci|] eqn:Hi;
    destruct (outputCoin r) as [co|] eqn:Ho;
    destruct (parsedAmount tryParseCoinAmount r) as [p|] eqn:Hp;
    destruct (truthy (to r)) eqn:Ht;
    destruct (truthy (isAddress (to r))) eqn:Hf;
    destruct (coinBalances r Field.INPUT) as [b|] eqn:Hb;
    destruct (TradeResult.trade quoted) as [t|] eqn:Hq;
    cbn;
    try destruct (lt b (maximumAmountIn t)) eqn:Hlt;
    destruct (TradeResult.state quoted) eqn:Hs;
    cbn;
    (split;
     [ try discriminate; intros _; repeat split; try discriminate;
       intros (b' & t' & Hb' & Ht' & Hlt'); congruence
     | intros (H1 & H2 & H3 & H4 & [H5 H6] & H7 & H8);
       try congruence; try reflexivity;
       contradiction H7; eauto ]).
Qed.

End DerivationFacts.

(** C2 fails as stated: with no account, an empty balance map and a quote
    whose maximum input is 1, the input error is the insufficient-balance
    message and not [Connect Wallet]. *)
Lemma no_account_insufficient_balance :
  account (Sample.render None None "1" None) = None
  /\ exists info,
       @useDerivedSwapInfo Sample.sdk Sample.isAddress Sample.tryParseCoinAmount
         (Sample.render None None "1" None) = Normal info
       /\ DerivedSwapInfo.inputError info = Some (Trans "Insufficient APT balance")
       /\ DerivedSwapInfo.inputError info <> Some (Trans "Connect Wallet").
Proof.
  split; [reflexivity|].
  assert (He : @inputError Sample.sdk Sample.isAddress Sample.tryParseCoinAmount
                 (Sample.render None None "1" None)
               = Normal (Some (Trans "Insufficient APT balance")))
    by reflexivity.
  apply useDerivedSwapInfo_inputError in He as (info & Hinfo & Herr).
  exists info. rewrite Herr. repeat split; [assumption | discriminate].
Qed.

(** Witness of C2: no account, 5 APT in the balance map and a quote whose
    maximum input is 3. *)
Lemma connect_wallet_unless_shortfall_witness :
  exists info,
    @useDerivedSwapInfo Sample.sdk Sample.isAddress Sample.tryParseCoinAmount
      (Sample.render None (Some 5%Q) "3" None) = Normal info
    /\ DerivedSwapInfo.inputError info = Some (Trans "Connect Wallet").
Proof.
  apply (proj1 (@connect_wallet_unless_shortfall Sample.sdk Sample.isAddress
                  Sample.tryParseCoinAmount
                  (Sample.render None (Some 5%Q) "3" None) eq_refl)).
  intros (b & t & Hb & Ht & Hlt).
  change (Some 5%Q = Some b) in Hb.
  change (Some (@Build_Trade Sample.sdk 3%Q) = Some t) in Ht.
  injection Hb as <-. injection Ht as <-.
  discriminate Hlt.
Defined.

(** C1: the code misses the claim.  A connected account holds 9 APT and
    types 10: both coins are resolved, the amount parses, the recipient is
    the account, a valid address, and the maximum input of the quote, 10,
    exceeds the balance, 9.  The test of the callback compares the texts
    ["9"] and ["10"], finds the first not below the second, and the hook
    returns no input error. *)
Theorem insufficient_balance_missed :
  truthy (account Sample.nineAgainstTen) = true
  /\ inputCoin Sample.nineAgainstTen = Some Sample.aptos
  /\ outputCoin Sample.nineAgainstTen = Some Sample.usdt
  /\ @parsedAmount Sample.sdk Sample.tryParseCoinAmount Sample.nineAgainstTen
     = Some 10%Q
  /\ truthy (Sample.isAddress (to Sample.nineAgainstTen)) = true
  /\ @coinBalances Sample.sdk Sample.nineAgainstTen Field.INPUT = Some 9%Q
  /\ TradeResult.trade
       (@trade Sample.sdk Sample.tryParseCoinAmount Sample.nineAgainstTen)
     = Some (@Build_Trade Sample.sdk 10%Q)
  /\ (9 < 10)%Q
  /\ @lt Sample.sdk 9%Q 10%Q = false
  /\ exists info,
       @useDerivedSwapInfo Sample.sdk Sample.isAddress Sample.tryParseCoinAmount
         Sample.nineAgainstTen = Normal info
       /\ DerivedSwapInfo.inputError info = None.
Proof.
  repeat (split; [reflexivity|]).
  apply useDerivedSwapInfo_inputError. reflexivity.
Qed.

(** C10: the code misses the claim.  A connected account holds 10 APT and
    types 7: every condition of the claim holds (account, coins, amount and
    recipient pass, the balance, 10, is not less than the maximum input, 7,
    and the state of the quote is VALID), yet the test of the callback
    compares the texts ["10"] and ["7"], finds the first below the second,
    and the input error is the insufficient-balance message. *)
Theorem inputError_undefined_misjudged :
  truthy (account Sample.tenAgainstSeven) = true
  /\ coins Sample.tenAgainstSeven Field.INPUT = Some Sample.aptos
  /\ coins Sample.tenAgainstSeven Field.OUTPUT = Some Sample.usdt
  /\ @parsedAmount Sample.sdk Sample.tryParseCoinAmount Sample.tenAgainstSeven
     = Some 7%Q
  /\ truthy (to Sample.tenAgainstSeven) = true
  /\ truthy (Sample.isAddress (to Sample.tenAgainstSeven)) = true
  /\ @coinBalances Sample.sdk Sample.tenAgainstSeven Field.INPUT = Some 10%Q
  /\ TradeResult.trade
       (@trade Sample.sdk Sample.tryParseCoinAmount Sample.tenAgainstSeven)
     = Some (@Build_Trade Sample.sdk 7%Q)
  /\ ~ (10 < 7)%Q
  /\ TradeResult.state
       (@trade Sample.sdk Sample.tryParseCoinAmount Sample.tenAgainstSeven)
     = VALID
  /\ @lt Sample.sdk 10%Q 7%Q = true
  /\ exists info,
       @useDerivedSwapInfo Sample.sdk Sample.isAddress Sample.tryParseCoinAmount
         Sample.tenAgainstSeven = Normal info
       /\ DerivedSwapInfo.inputError info
          = Some (Trans "Insufficient APT balance").
Proof.
  repeat (split; [first [reflexivity | discriminate]|]).
  apply useDerivedSwapInfo_inputError. reflexivity.
Qed.

(** The balance check reads the typed amount against the balance: with
    enough balance and a valid recipient nothing is reported. *)
Example no_error_run :
  @inputError Sample.sdk Sample.isAddress Sample.tryParseCoinAmount
    (Sample.render (Some "0xa11ce") (Some 5%Q) "3" (Some "0xb0b")) = Normal None.
Proof. vm_compute. reflexivity. Qed.

Example bad_recipient_run :
  @inputError Sample.sdk Sample.isAddress Sample.tryParseCoinAmount
    (Sample.render (Some "0xa11ce") (Some 5%Q) "3" (Some "bob"))
  = Normal (Some (Trans "Enter a recipient")).
Proof. reflexivity. Qed.

(** A recipient that is not an address does not hide the balance check. *)
Example insufficient_over_recipient_run :
  @inputError Sample.sdk Sample.isAddress Sample.tryParseCoinAmount
    (Sample.render (Some "0xa11ce") (Some 5%Q) "7" (Some "bob"))
  = Normal (Some (Trans "Insufficient APT balance")).
Proof. reflexivity. Qed.

(** * Further properties of the code *)

(** ** The two recipient patterns *)

Section PatternFacts.

Import Regex.

Lemma ens_match_dot s :
  regex_test ENS_NAME_REGEX s = true -> In "."%char (list_ascii_of_string s).
Proof.
  unfold regex_test, ENS_NAME_REGEX. rewrite matchFrom_spec, Matches_chars_iff.
  intros (name & rest & -> & _ & _ & Hm).
  apply Matches_lit_iff in Hm as (rest' & -> & _).
  apply in_or_app. right. left. reflexivity.
Qed.

Lemma address_match_chars s :
  regex_test ADDRESS_REGEX s = true ->
  exists h,
    list_ascii_of_string s = "0"%char :: "x"%char :: h
    /\ Forall (fun c => JsString.isHex c = true) h.
Proof.
  unfold regex_test, ADDRESS_REGEX. rewrite matchFrom_spec, Matches_lit_iff.
  intros (r1 & -> & Hm). apply Matches_lit_iff in Hm as (r2 & -> & Hm).
  apply Matches_chars_iff in Hm as (run & rest & -> & _ & Hall & Hm).
  apply Matches_nil_iff in Hm as ->. rewrite app_nil_r. eauto.
Qed.

(** X3: no string matches both patterns: a match of the address pattern has
    no dot, a match of the name pattern has one. *)
Theorem ADDRESS_REGEX_excludes_ENS_NAME_REGEX s :
  regex_test ADDRESS_REGEX s = true -> regex_test ENS_NAME_REGEX s = false.
Proof.
  intros Ha. destruct (regex_test ENS_NAME_REGEX s) eqn:He; [|reflexivity].
  apply ens_match_dot in He.
  apply address_match_chars in Ha as (h & Hs & Hall). rewrite Hs in He.
  destruct He as [He | [He | He]]; try discriminate.
  rewrite Forall_forall in Hall. apply list_elem_of_In, Hall in He.
  discriminate.
Qed.

End PatternFacts.

Lemma ADDRESS_REGEX_excludes_ENS_NAME_REGEX_witness :
  Regex.regex_test ENS_NAME_REGEX "0x0123456789abcdefABCDEF0123456789abcdef01"
  = false.
Proof.
  apply ADDRESS_REGEX_excludes_ENS_NAME_REGEX. vm_compute. reflexivity.
Defined.

(** ** The state the URL parser returns *)

Section UrlStateMore.

Variable isAddress : option string -> option string.

Local Abbreviation parse := (queryParametersToSwapState isAddress).
Local Abbreviation parseCurrency := (parseCurrencyFromURLParameter isAddress).

Lemma nullIfEmpty_Some s x : nullIfEmpty s = Some x <-> s = x /\ x <> "".
Proof.
  unfold nullIfEmpty. destruct (String.eqb_spec s "") as [->|Hs].
  - split; [discriminate | intros [<- Hx]; contradiction].
  - split; [intros [= <-]; auto | intros [<- _]; reflexivity].
Qed.

Lemma nullIfEmpty_None s : nullIfEmpty s = None <-> s = "".
Proof.
  unfold nullIfEmpty. destruct (String.eqb_spec s "") as [->|Hs].
  - tauto.
  - split; [discriminate | contradiction].
Qed.

(** The three branches of the currency policy, with their conditions. *)
Lemma queryParameters_currencies q :
  exists st,
    parse q = Normal st
    /\ typedValue st = parseTokenAmountURLParameter (prop q "exactAmount")
    /\ parseIndependentFieldURLParameter (prop q "exactField")
       = Normal (independentField st)
    /\ let i := parseCurrency (prop q "inputCurrency") in
       let o := parseCurrency (prop q "outputCurrency") in
       (i = "" /\ o = "" /\ typedValue st = ""
        /\ independentField st = Field.INPUT
        /\ currencyId (INPUT st) = Some APT /\ currencyId (OUTPUT st) = None)
       \/ (~ (i = "" /\ o = "" /\ typedValue st = ""
              /\ independentField st = Field.INPUT)
           /\ i = o
           /\ currencyId (INPUT st) = nullIfEmpty i
           /\ currencyId (OUTPUT st) = None)
       \/ (i <> o
           /\ currencyId (INPUT st) = nullIfEmpty i
           /\ currencyId (OUTPUT st) = nullIfEmpty o).
Proof.
  destruct (queryParameters_fields isAddress q)
    as (st & Hst & Htv & Hfld & _ & Hcur).
  exists st. repeat (split; [assumption|]). cbv zeta in *.
  destruct (String.eqb_spec (parseCurrency (prop q "inputCurrency")) "") as [Hi|Hi];
    destruct (String.eqb_spec (parseCurrency (prop q "outputCurrency")) "") as [Ho|Ho];
    destruct (String.eqb_spec (typedValue st) "") as [Hv|Hv];
    destruct (independentField st) eqn:Hf; cbn in Hcur;
    try (injection Hcur as Hin Hout; left; tauto);
    destruct (String.eqb_spec (parseCurrency (prop q "inputCurrency"))
                (parseCurrency (prop q "outputCurrency"))) as [Hio|Hio];
    injection Hcur as Hin Hout;
    try (right; right; tauto);
    right; left; (split; [|tauto]);
    intros (H1 & H2 & H3 & H4); congruence.
Qed.

(** X4: the returned state never selects the same asset on both sides. *)
Theorem queryParametersToSwapState_distinct q :
  exists st,
    queryParametersToSwapState isAddress q = Normal st
    /\ forall a b,
         currencyId (INPUT st) = Some a ->
         currencyId (OUTPUT st) = Some b ->
         a <> b.
Proof.
  destruct (queryParameters_currencies q) as (st & Hst & _ & _ & Hc).
  exists st. split; [assumption|]. intros a b Ha Hb. cbv zeta in Hc.
  destruct Hc as [(_ & _ & _ & _ & _ & Ho) | [(_ & _ & _ & Ho) | (Hne & Hi & Ho)]];
    try congruence.
  rewrite Ha in Hi. rewrite Hb in Ho. symmetry in Hi, Ho.
  apply nullIfEmpty_Some in Hi as [Hi _]. apply nullIfEmpty_Some in Ho as [Ho _].
  congruence.
Qed.

(** X5: the returned state holds no empty identifier: a currency id and the
    recipient are null or a non-empty string, and the typed value is empty
    or starts with a number. *)
Theorem queryParametersToSwapState_wellformed q :
  exists st,
    parse q = Normal st
    /\ currencyId (INPUT st) <> Some ""
    /\ currencyId (OUTPUT st) <> Some ""
    /\ recipient st <> Some ""
    /\ (typedValue st = "" \/ startsNumeric (typedValue st) = true).
Proof.
  destruct (queryParameters_currencies q) as (st & Hst & Htv & _ & Hc).
  exists st. split; [assumption|]. cbv zeta in Hc.
  assert (Hn : forall s, nullIfEmpty s <> Some "").
  { intros s Hs. apply nullIfEmpty_Some in Hs as [_ Hs]. contradiction. }
  split; [|split; [|split]].
  - destruct Hc as [(_ & _ & _ & _ & -> & _) | [(_ & _ & -> & _) | (_ & -> & _)]];
      [discriminate | apply Hn | apply Hn].
  - destruct Hc as [(_ & _ & _ & _ & _ & ->) | [(_ & _ & _ & ->) | (_ & _ & ->)]];
      [discriminate | discriminate | apply Hn].
  - destruct (queryParameters_fields isAddress q) as (st' & Hst' & _ & _ & Hrec & _).
    rewrite Hst in Hst'. injection Hst' as <-. rewrite Hrec.
    destruct (prop q "recipient") as [|s| | |]; try discriminate.
    unfold validatedRecipient. cbv zeta.
    destruct (truthy (isAddress (Some s))) eqn:Ht.
    + intros Hs. rewrite Hs in Ht. discriminate.
    + destruct (Regex.regex_test ENS_NAME_REGEX s) eqn:He.
      * intros [= ->]. discriminate.
      * destruct (Regex.regex_test ADDRESS_REGEX s) eqn:Ha; [|discriminate].
        intros [= ->]. discriminate.
  - rewrite Htv. destruct (prop q "exactAmount") as [|s| | |]; try (left; reflexivity).
    cbn. rewrite parseFloat_isNaN, negb_involutive.
    destruct (startsNumeric s) eqn:Hs; [right; assumption | left; reflexivity].
Qed.

(** X6: the input currency of the returned state is null exactly when the
    [inputCurrency] parameter gives no address and another parameter is set
    (an output currency, a typed value, or OUTPUT as field): the native asset
    is the default only for a query that sets none of them. *)
Theorem queryParametersToSwapState_input_null q :
  exists st,
    parse q = Normal st
    /\ (currencyId (INPUT st) = None <->
        parseCurrency (prop q "inputCurrency") = ""
        /\ ~ (parseCurrency (prop q "outputCurrency") = ""
              /\ parseTokenAmountURLParameter (prop q "exactAmount") = ""
              /\ parseIndependentFieldURLParameter (prop q "exactField")
                 = Normal Field.INPUT)).
Proof.
  destruct (queryParameters_currencies q) as (st & Hst & Htv & Hfld & Hc).
  exists st. split; [assumption|]. cbv zeta in Hc. rewrite <- Htv, Hfld.
  destruct Hc as [(Hi & Ho & Hv & Hf & Hin & _)
                 | [(Hn & Hio & Hin & _) | (Hne & Hin & _)]]; rewrite Hin.
  - split; [discriminate|]. intros [_ Hc]. contradiction Hc.
    rewrite Hf. auto.
  - rewrite nullIfEmpty_None. split.
    + intros Hi. split; [assumption|]. intros (Ho & Hv & [= Hf]). tauto.
    + tauto.
  - rewrite nullIfEmpty_None. split.
    + intros Hi. split; [assumption|]. intros (Ho & _). congruence.
    + tauto.
Qed.

(** X7: the output currency of the returned state is the address the
    [outputCurrency] parameter resolves to, exactly when that address is not
    empty and differs from the one [inputCurrency] resolves to; it is null
    otherwise. *)
Theorem queryParametersToSwapState_output q :
  exists st,
    parse q = Normal st
    /\ forall o,
         currencyId (OUTPUT st) = Some o <->
         parseCurrency (prop q "outputCurrency") = o
         /\ o <> ""
         /\ parseCurrency (prop q "inputCurrency") <> o.
Proof.
  destruct (queryParameters_currencies q) as (st & Hst & _ & _ & Hc).
  exists st. split; [assumption|]. intros o. cbv zeta in Hc.
  destruct Hc as [(Hi & Ho & _ & _ & _ & Hout)
                 | [(_ & Hio & _ & Hout) | (Hne & _ & Hout)]]; rewrite Hout.
  - split; [discriminate|]. intros (<- & Hx & _). contradiction.
  - split; [discriminate|]. intros (<- & _ & Hx). contradiction.
  - rewrite nullIfEmpty_Some. split.
    + intros [<- Hx]. auto.
    + tauto.
Qed.

(** X8: a recipient the validator accepts is returned as the validator gives
    it, before any pattern is tried; a recipient only a pattern accepts is
    returned as it was written. *)
Theorem queryParametersToSwapState_recipient_value q :
  exists st,
    parse q = Normal st
    /\ forall x,
         recipient st = Some x <->
         exists s,
           prop q "recipient" = QString s
           /\ ((truthy (isAddress (Some s)) = true /\ isAddress (Some s) = Some x)
               \/ (truthy (isAddress (Some s)) = false /\ x = s
                   /\ (Regex.regex_test ENS_NAME_REGEX s = true
                       \/ Regex.regex_test ADDRESS_REGEX s = true))).
Proof.
  destruct (queryParameters_fields isAddress q) as (st & Hst & _ & _ & Hrec & _).
  exists st. split; [assumption|]. intros x. rewrite Hrec.
  destruct (prop q "recipient") as [|s| | |]; unfold validatedRecipient;
    try (split; [discriminate | intros (s' & [=] & _)]).
  cbv zeta.
  destruct (truthy (isAddress (Some s))) eqn:Ht; cbv iota.
  - split.
    + intros Hx. exists s. auto.
    + intros (s' & [= <-] & [[_ Hx] | [Hc _]]); congruence.
  - destruct (Regex.regex_test ENS_NAME_REGEX s) eqn:He; cbv iota.
    + split.
      * intros [= <-]. exists s. auto 6.
      * intros (s' & [= <-] & [[Hc _] | (_ & -> & _)]); congruence.
    + destruct (Regex.regex_test ADDRESS_REGEX s) eqn:Ha; cbv iota.
      * split.
        -- intros [= <-]. exists s. auto 6.
        -- intros (s' & [= <-] & [[Hc _] | (_ & -> & _)]); congruence.
      * split; [discriminate|].
        intros (s' & [= <-] & [[Hc _] | (_ & _ & [Hc | Hc])]); congruence.
Qed.

(** X9: a parameter under any other key than the five the parser reads does
    not change the result. *)
Theorem queryParametersToSwapState_other_key q k v :
  k ∉ ["inputCurrency"; "outputCurrency"; "exactAmount"; "exactField"; "recipient"] ->
  queryParametersToSwapState isAddress (<[k := v]> q)
  = queryParametersToSwapState isAddress q.
Proof.
  intros Hk.
  assert (Hp : forall key,
    key ∈ ["inputCurrency"; "outputCurrency"; "exactAmount"; "exactField"; "recipient"] ->
    prop (<[k := v]> q) key = prop q key).
  { intros key Hin. unfold prop. rewrite lookup_insert_ne; [reflexivity|].
    intros ->. contradiction. }
  unfold queryParametersToSwapState.
  rewrite !Hp by (repeat first [apply list_elem_of_here | apply list_elem_of_further]).
  reflexivity.
Qed.

(** X10: the [recipient] parameter decides the recipient and nothing else:
    replacing it leaves both currencies, the typed value and the independent
    field as they were. *)
Theorem queryParametersToSwapState_recipient_only q v :
  exists st st',
    parse q = Normal st
    /\ parse (<["recipient" := v]> q) = Normal st'
    /\ INPUT st' = INPUT st
    /\ OUTPUT st' = OUTPUT st
    /\ typedValue st' = typedValue st
    /\ independentField st' = independentField st
    /\ recipient st' = validatedRecipient isAddress v.
Proof.
  assert (Hp : forall key, key <> "recipient" ->
    prop (<["recipient" := v]> q) key = prop q key).
  { intros key Hk. unfold prop. rewrite lookup_insert_ne; [reflexivity|].
    congruence. }
  assert (Hr : prop (<["recipient" := v]> q) "recipient" = v).
  { unfold prop. rewrite lookup_insert_eq. reflexivity. }
  destruct (queryParameters_fields isAddress q)
    as (st & Hst & Htv & Hfld & _ & Hcur).
  destruct (queryParameters_fields isAddress (<["recipient" := v]> q))
    as (st' & Hst' & Htv' & Hfld' & Hrec' & Hcur').
  rewrite Hr in Hrec'. rewrite !Hp in * by discriminate.
  rewrite <- Htv in Htv'. rewrite Hfld in Hfld'. injection Hfld' as Hfld'.
  rewrite Htv', <- Hfld', <- Hcur in Hcur'. injection Hcur' as Hin Hout.
  exists st, st'. repeat (split; [assumption|]).
  split; [destruct (INPUT st'), (INPUT st); cbn in *; congruence|].
  split; [destruct (OUTPUT st'), (OUTPUT st); cbn in *; congruence|].
  auto.
Qed.

End UrlStateMore.

Lemma queryParametersToSwapState_other_key_witness :
  queryParametersToSwapState Sample.isAddress
    (<["utm_source" := QString "mail"]> {[ "exactAmount" := QString "5" ]})
  = queryParametersToSwapState Sample.isAddress {[ "exactAmount" := QString "5" ]}.
Proof.
  apply queryParametersToSwapState_other_key.
  rewrite !not_elem_of_cons. repeat (split; [discriminate|]).
  apply not_elem_of_nil.
Defined.

(** ** Which message the derived information carries *)

Section DerivationMore.

Context `{Sdk}.
Variable isAddress : option string -> option string.
Variable tryParseCoinAmount : string -> option Coin -> option Decimal.
Variable r : Render.

Local Abbreviation quoted := (trade tryParseCoinAmount r).
Local Abbreviation error := (inputError isAddress tryParseCoinAmount r).
Local Abbreviation derived := (useDerivedSwapInfo isAddress tryParseCoinAmount r).

Local Abbreviation shortfall :=
  (exists b t,
     coinBalances r Field.INPUT = Some b
     /\ TradeResult.trade quoted = Some t
     /\ lt b (maximumAmountIn t) = true).

Local Abbreviation shows m :=
  (exists info,
     derived = Normal info
     /\ DerivedSwapInfo.inputError info = Some (Trans m)).

(** The test of the balance check, as the callback evaluates it. *)
Local Abbreviation fires :=
  (match coinBalances r Field.INPUT, TradeResult.trade quoted with
   | Some b, Some t => lt b (maximumAmountIn t)
   | _, _ => false
   end).

Lemma shortfall_fires : shortfall <-> fires = true.
Proof.
  destruct (coinBalances r Field.INPUT) as [b|];
    destruct (TradeResult.trade quoted) as [t|]; split;
    try discriminate; try (intros (b' & t' & Hb & Ht & _); discriminate).
  - intros (b' & t' & [= <-] & [= <-] & Hlt). assumption.
  - intros Hlt. eauto.
Qed.

Lemma not_shortfall_fires : ~ shortfall <-> fires = false.
Proof. rewrite shortfall_fires. destruct fires; split; congruence. Qed.

(** The callback in closed form: the message of the balance check when it
    fires, and otherwise the message of the first condition that fails. *)
Lemma inputError_closed :
  error =
  if fires
  then sym ← getSymbol (inputCoin r);
       mret (Some (Trans ("Insufficient " ++ sym ++ " balance")))
  else
    Normal
      (if negb (truthy (account r)) then Some (Trans "Connect Wallet")
       else if negb (isSome (inputCoin r)) || negb (isSome (outputCoin r))
       then Some (Trans "Select a coin")
       else if negb (isSome (parsedAmount tryParseCoinAmount r))
       then Some (Trans "Enter an amount")
       else if negb (truthy (to r)) || negb (truthy (isAddress (to r)))
       then Some (Trans "Enter a recipient")
       else if isNoRouteFound (TradeResult.state quoted)
       then Some (Trans "No route found")
       else None).
Proof.
  unfold inputError, coins.
  destruct (coinBalances r Field.INPUT) as [b|];
    destruct (TradeResult.trade quoted) as [t|]; cbn;
    try destruct (lt b (maximumAmountIn t)); cbn;
    try (destruct (inputCoin r); cbn;
         destruct (isNoRouteFound (TradeResult.state quoted)); reflexivity);
    destruct (truthy (account r)),
             (inputCoin r), (outputCoin r),
             (parsedAmount tryParseCoinAmount r),
             (truthy (to r)), (truthy (isAddress (to r))),
             (isNoRouteFound (TradeResult.state quoted)); reflexivity.
Qed.

(** Case analysis in the order of the callback; a case is left as soon as a
    condition decides the message. *)
Local Ltac decided :=
  cbn; cbv [mret completion_ret mbind completion_bind String.append];
  solve [intuition (try congruence)].

Local Ltac callback_cases :=
  rewrite ?useDerivedSwapInfo_inputError, ?inputError_closed,
    ?not_shortfall_fires, ?shortfall_fires;
  unfold coins;
  destruct fires;
    [ destruct (inputCoin r); decided |];
  destruct (truthy (account r)); [|decided];
  destruct (inputCoin r); [|decided];
  destruct (outputCoin r); [|decided];
  destruct (parsedAmount tryParseCoinAmount r); [|decided];
  destruct (truthy (to r)); [|decided];
  destruct (truthy (isAddress (to r))); [|decided];
  destruct (TradeResult.state quoted); decided.

(** X11: each of the messages of the conditions (a) to (d) is the input
    error exactly when its condition is the first of them that fails and the
    balance check does not fire. *)
Theorem inputError_first_failing :
  (shows "Connect Wallet" <->
   truthy (account r) = false /\ ~ shortfall)
  /\ (shows "Select a coin" <->
      truthy (account r) = true
      /\ (coins r Field.INPUT = None \/ coins r Field.OUTPUT = None)
      /\ ~ shortfall)
  /\ (shows "Enter an amount" <->
      truthy (account r) = true
      /\ coins r Field.INPUT <> None /\ coins r Field.OUTPUT <> None
      /\ parsedAmount tryParseCoinAmount r = None
      /\ ~ shortfall)
  /\ (shows "Enter a recipient" <->
      truthy (account r) = true
      /\ coins r Field.INPUT <> None /\ coins r Field.OUTPUT <> None
      /\ parsedAmount tryParseCoinAmount r <> None
      /\ (truthy (to r) = false \/ truthy (isAddress (to r)) = false)
      /\ ~ shortfall).
Proof. callback_cases. Qed.

(** X12: [No route found] is the input error exactly when nothing else is
    wrong: account, coins, amount and recipient pass, the balance check does
    not fire, and the state of the quote is NO_ROUTE_FOUND. *)
Theorem inputError_no_route :
  shows "No route found" <->
  truthy (account r) = true
  /\ coins r Field.INPUT <> None /\ coins r Field.OUTPUT <> None
  /\ parsedAmount tryParseCoinAmount r <> None
  /\ truthy (to r) = true /\ truthy (isAddress (to r)) = true
  /\ ~ shortfall
  /\ TradeResult.state quoted = NO_ROUTE_FOUND.
Proof. callback_cases. Qed.

(** X13: with a resolved input coin, the insufficient-balance message of
    that coin is the input error exactly when the balance check of the
    callback fires (an input balance and the maximum input of a quote exist
    and the test [<] of the callback holds on them). *)
Theorem inputError_insufficient_iff c :
  inputCoin r = Some c ->
  (shows ("Insufficient " ++ symbol c ++ " balance") <-> shortfall).
Proof.
  intros Hc. revert Hc. callback_cases.
Qed.

(** X14: the callback that computes the input error throws a TypeError
    exactly when its balance check fires while the input coin is not
    resolved (it reads the symbol of the coin); on every other input it
    returns. *)
Theorem inputError_throws_iff :
  (error = Throw TypeError <-> inputCoin r = None /\ shortfall)
  /\ ((exists e, error = Normal e) <-> ~ (inputCoin r = None /\ shortfall)).
Proof.
  rewrite inputError_closed, shortfall_fires.
  destruct fires; destruct (inputCoin r);
    cbn; cbv [mret completion_ret];
    (split; split;
     [ intros He; try discriminate He; auto
     | intros [Hc Hf]; try discriminate; reflexivity
     | intros [e He] [Hc Hf]; discriminate
     | intros Hn; first [eexists; reflexivity | contradiction Hn; auto] ]).
Qed.

(** X15: a recipient that is the empty string is not replaced by the
    account: with everything else in order the input error is
    [Enter a recipient]. *)
Theorem inputError_empty_recipient :
  recipient (useSwapState r) = Some "" ->
  truthy (account r) = true ->
  coins r Field.INPUT <> None ->
  coins r Field.OUTPUT <> None ->
  parsedAmount tryParseCoinAmount r <> None ->
  ~ shortfall ->
  shows "Enter a recipient".
Proof.
  intros Hrec Hacc Hin Hout Hamt Hno.
  assert (Hto : truthy (to r) = false).
  { unfold to. rewrite Hrec. reflexivity. }
  revert Hto Hacc Hin Hout Hamt Hno.
  callback_cases.
Qed.

End DerivationMore.

Lemma inputError_insufficient_iff_witness :
  (exists info,
     @useDerivedSwapInfo Sample.sdk Sample.isAddress Sample.tryParseCoinAmount
       (Sample.render (Some "0xa11ce") (Some 5%Q) "7" None) = Normal info
     /\ DerivedSwapInfo.inputError info = Some (Trans "Insufficient APT balance"))
  <->
  (exists b t,
     @coinBalances Sample.sdk
       (Sample.render (Some "0xa11ce") (Some 5%Q) "7" None) Field.INPUT = Some b
     /\ TradeResult.trade
          (@trade Sample.sdk Sample.tryParseCoinAmount
             (Sample.render (Some "0xa11ce") (Some 5%Q) "7" None)) = Some t
     /\ @lt Sample.sdk b (maximumAmountIn t) = true).
Proof.
  apply (@inputError_insufficient_iff Sample.sdk Sample.isAddress
           Sample.tryParseCoinAmount
           (Sample.render (Some "0xa11ce") (Some 5%Q) "7" None) Sample.aptos).
  reflexivity.
Defined.

Lemma inputError_empty_recipient_witness :
  exists info,
    @useDerivedSwapInfo Sample.sdk Sample.isAddress Sample.tryParseCoinAmount
      (Sample.render (Some "0xa11ce") (Some 5%Q) "3" (Some "")) = Normal info
    /\ DerivedSwapInfo.inputError info = Some (Trans "Enter a recipient").
Proof.
  apply (@inputError_empty_recipient Sample.sdk Sample.isAddress
           Sample.tryParseCoinAmount
           (Sample.render (Some "0xa11ce") (Some 5%Q) "3" (Some ""))).
  - reflexivity.
  - reflexivity.
  - discriminate.
  - discriminate.
  - discriminate.
  - intros (b & t & Hb & Ht & Hlt).
    change (Some 5%Q = Some b) in Hb.
    change (Some (@Build_Trade Sample.sdk 3%Q) = Some t) in Ht.
    injection Hb as <-. injection Ht as <-.
    discriminate Hlt.
Defined.

(** ** Seeding the store from the URL *)

Section DefaultsFacts.

Variable isAddress : option string -> option string.
Context {ChainId : Type} `{EqDecision ChainId}.
Variable chainTruthy : ChainId -> bool.

Local Abbreviation parse := (queryParametersToSwapState isAddress).
Local Abbreviation pass := (useDefaultsFromURLSearch isAddress chainTruthy).
Local Abbreviation passes := (renderPasses isAddress chainTruthy).

(** A later pass follows the URL and dispatches nothing. *)
Local Abbreviation quiet :=
  (fun (u : UrlRender ChainId) (x : SwapState * option ReplaceSwapState.t) =>
     parse (useParsedQueryString u) = Normal (fst x) /\ snd x = None).

Lemma useDefaultsFromURLSearch_normal prev u :
  exists st,
    parse (useParsedQueryString u) = Normal st
    /\ pass prev u =
       Normal (st, if effectRuns prev (effectDeps u)
                   then seedEffect chainTruthy (useChainId u) st
                   else None).
Proof.
  destruct (queryParameters_fields isAddress (useParsedQueryString u))
    as (st & Hst & _).
  exists st. split; [assumption|].
  unfold useDefaultsFromURLSearch. rewrite Hst. reflexivity.
Qed.

Lemma effectRuns_same (d : nat * option ChainId) :
  effectRuns (Some d) d = false.
Proof. unfold effectRuns. rewrite bool_decide_eq_true_2; reflexivity. Qed.

Lemma renderPasses_same_deps (d : nat * option ChainId) us :
  Forall (fun u => effectDeps u = d) us ->
  exists xs, passes (Some d) us = Normal xs /\ Forall2 quiet us xs.
Proof.
  induction us as [|u us IH]; intros Hall.
  - exists []. split; [reflexivity | constructor].
  - apply Forall_cons in Hall as [Hu Hall].
    destruct (IH Hall) as (xs & Hxs & Hq).
    destruct (useDefaultsFromURLSearch_normal (Some d) u) as (st & Hst & Hp).
    rewrite Hu, effectRuns_same in Hp.
    exists ((st, None) :: xs). split.
    + cbn [renderPasses]. rewrite Hp, Hu. cbn. rewrite Hxs. reflexivity.
    + constructor; [split; [assumption | reflexivity] | assumption].
Qed.

(** X16: while the chain id and the dispatch function stay the same, only
    the first render pass seeds the store, from the URL of that pass; every
    later pass returns the state parsed from its own URL and dispatches
    nothing. *)
Theorem mount_seeds_once u us :
  Forall (fun u' => effectDeps u' = effectDeps u) us ->
  exists st xs,
    mount isAddress chainTruthy (u :: us)
    = Normal ((st, seedEffect chainTruthy (useChainId u) st) :: xs)
    /\ parse (useParsedQueryString u) = Normal st
    /\ Forall2 quiet us xs.
Proof.
  intros Hall.
  destruct (renderPasses_same_deps _ _ Hall) as (xs & Hxs & Hq).
  destruct (useDefaultsFromURLSearch_normal None u) as (st & Hst & Hp).
  exists st, xs. split; [|auto].
  unfold mount. cbn [renderPasses]. rewrite Hp. cbn. rewrite Hxs. reflexivity.
Qed.

(** X17: without a truthy chain id no render pass seeds the store, whatever
    changes between the passes. *)
Theorem mount_without_chain us :
  Forall (fun u => from_option chainTruthy false (useChainId u) = false) us ->
  exists xs,
    mount isAddress chainTruthy us = Normal xs
    /\ Forall2 quiet us xs.
Proof.
  unfold mount. generalize (@None (nat * option ChainId)).
  induction us as [|u us IH]; intros prev Hall.
  - exists []. split; [reflexivity | constructor].
  - apply Forall_cons in Hall as [Hu Hall].
    destruct (IH (Some (effectDeps u)) Hall) as (xs & Hxs & Hq).
    destruct (useDefaultsFromURLSearch_normal prev u) as (st & Hst & Hp).
    assert (Hnone : (if effectRuns prev (effectDeps u)
                     then seedEffect chainTruthy (useChainId u) st
                     else None) = None).
    { unfold seedEffect. rewrite Hu. destruct (effectRuns _ _); reflexivity. }
    rewrite Hnone in Hp.
    exists ((st, None) :: xs). split.
    + cbn [renderPasses]. rewrite Hp. cbn. rewrite Hxs. reflexivity.
    + constructor; [split; [assumption | reflexivity] | assumption].
Qed.

(** X18: what a pass dispatches is the state it parsed, field by field, so
    the store is never seeded with the same asset on both sides. *)
Theorem useDefaultsFromURLSearch_payload prev u st p :
  pass prev u = Normal (st, Some p) ->
  parse (useParsedQueryString u) = Normal st
  /\ from_option chainTruthy false (useChainId u) = true
  /\ effectRuns prev (effectDeps u) = true
  /\ ReplaceSwapState.typedValue p = typedValue st
  /\ ReplaceSwapState.field p = independentField st
  /\ ReplaceSwapState.inputCurrencyId p = currencyId (INPUT st)
  /\ ReplaceSwapState.outputCurrencyId p = currencyId (OUTPUT st)
  /\ ReplaceSwapState.recipient p = recipient st
  /\ forall a b,
       ReplaceSwapState.inputCurrencyId p = Some a ->
       ReplaceSwapState.outputCurrencyId p = Some b ->
       a <> b.
Proof.
  intros Hp.
  destruct (useDefaultsFromURLSearch_normal prev u) as (st' & Hst & Hp').
  rewrite Hp in Hp'. injection Hp' as <- Hd.
  split; [assumption|].
  destruct (effectRuns prev (effectDeps u)); [|discriminate].
  unfold seedEffect in Hd.
  destruct (from_option chainTruthy false (useChainId u)); [|discriminate].
  cbn in Hd. injection Hd as ->. cbn.
  repeat (split; [reflexivity|]).
  intros a b Ha Hb.
  destruct (queryParameters_fields isAddress (useParsedQueryString u))
    as (st2 & Hst2 & _ & _ & _ & Hcur).
  rewrite Hst in Hst2. injection Hst2 as <-. cbv zeta in Hcur.
  rewrite Ha, Hb in Hcur.
  destruct (_ && _ && _ && _); [discriminate|].
  destruct (String.eqb_spec
              (parseCurrencyFromURLParameter isAddress
                 (prop (useParsedQueryString u) "inputCurrency"))
              (parseCurrencyFromURLParameter isAddress
                 (prop (useParsedQueryString u) "outputCurrency"))) as [He|Hne];
    [discriminate|].
  injection Hcur as Hi Ho. unfold nullIfEmpty in Hi, Ho.
  destruct (String.eqb _ ""); [discriminate|].
  destruct (String.eqb _ "") in Ho; [discriminate|]. congruence.
Qed.

End DefaultsFacts.

Lemma mount_seeds_once_witness :
  exists st xs,
    mount Sample.isAddress (fun n : N => negb (n =? 0)%N)
      [ {| useChainId := Some 1%N; useAppDispatch := 0;
           useParsedQueryString := {[ "exactAmount" := QString "5" ]} |};
        {| useChainId := Some 1%N; useAppDispatch := 0;
           useParsedQueryString := {[ "exactAmount" := QString "7" ]} |} ]
    = Normal ((st, seedEffect (fun n : N => negb (n =? 0)%N) (Some 1%N) st) :: xs)
    /\ queryParametersToSwapState Sample.isAddress
         {[ "exactAmount" := QString "5" ]} = Normal st
    /\ Forall2
         (fun (u : UrlRender N) (x : SwapState * option ReplaceSwapState.t) =>
            queryParametersToSwapState Sample.isAddress (useParsedQueryString u)
            = Normal (fst x) /\ snd x = None)
         [ {| useChainId := Some 1%N; useAppDispatch := 0;
              useParsedQueryString := {[ "exactAmount" := QString "7" ]} |} ]
         xs.
Proof.
  assert (Hsame : Forall
    (fun u' : UrlRender N =>
       effectDeps u' =
       effectDeps {| useChainId := Some 1%N; useAppDispatch := 0;
                     useParsedQueryString := {[ "exactAmount" := QString "5" ]} |})
    [ {| useChainId := Some 1%N; useAppDispatch := 0;
         useParsedQueryString := {[ "exactAmount" := QString "7" ]} |} ])
    by (repeat constructor).
  exact (mount_seeds_once Sample.isAddress (fun n : N => negb (n =? 0)%N)
           _ _ Hsame).
Defined.

Lemma mount_without_chain_witness :
  exists xs,
    mount Sample.isAddress (fun n : N => negb (n =? 0)%N)
      [ {| useChainId := None; useAppDispatch := 0;
           useParsedQueryString := {[ "exactAmount" := QString "5" ]} |};
        {| useChainId := Some 0%N; useAppDispatch := 1;
           useParsedQueryString := ∅ |} ]
    = Normal xs
    /\ Forall2
         (fun (u : UrlRender N) (x : SwapState * option ReplaceSwapState.t) =>
            queryParametersToSwapState Sample.isAddress (useParsedQueryString u)
            = Normal (fst x) /\ snd x = None)
         [ {| useChainId := None; useAppDispatch := 0;
              useParsedQueryString := {[ "exactAmount" := QString "5" ]} |};
           {| useChainId := Some 0%N; useAppDispatch := 1;
              useParsedQueryString := ∅ |} ]
         xs.
Proof.
  assert (Hfalsy : Forall
    (fun u : UrlRender N =>
       from_option (fun n : N => negb (n =? 0)%N) false (useChainId u) = false)
    [ {| useChainId := None; useAppDispatch := 0;
         useParsedQueryString := {[ "exactAmount" := QString "5" ]} |};
      {| useChainId := Some 0%N; useAppDispatch := 1;
         useParsedQueryString := ∅ |} ])
    by (repeat constructor).
  exact (mount_without_chain Sample.isAddress (fun n : N => negb (n =? 0)%N)
           _ Hfalsy).
Defined.

Lemma useDefaultsFromURLSearch_payload_witness :
  queryParametersToSwapState Sample.isAddress
    {[ "inputCurrency" := QString "0x1::usdt::USDT";
       "outputCurrency" := QString "0x1::usdt::USDT" ]}
  = Normal {| INPUT := {| currencyId := Some "0x1::usdt::USDT" |};
              OUTPUT := {| currencyId := None |};
              typedValue := "";
              independentField := Field.INPUT;
              recipient := None |}
  /\ ReplaceSwapState.inputCurrencyId
       {| ReplaceSwapState.typedValue := "";
          ReplaceSwapState.field := Field.INPUT;
          ReplaceSwapState.inputCurrencyId := Some "0x1::usdt::USDT";
          ReplaceSwapState.outputCurrencyId := None;
          ReplaceSwapState.recipient := None |}
     = Some "0x1::usdt::USDT".
Proof.
  pose proof (useDefaultsFromURLSearch_payload Sample.isAddress
    (fun n : N => negb (n =? 0)%N) None
    {| useChainId := Some 1%N; useAppDispatch := 0;
       useParsedQueryString :=
         {[ "inputCurrency" := QString "0x1::usdt::USDT";
            "outputCurrency" := QString "0x1::usdt::USDT" ]} |}
    {| INPUT := {| currencyId := Some "0x1::usdt::USDT" |};
       OUTPUT := {| currencyId := None |};
       typedValue := "";
       independentField := Field.INPUT;
       recipient := None |}
    {| ReplaceSwapState.typedValue := "";
       ReplaceSwapState.field := Field.INPUT;
       ReplaceSwapState.inputCurrencyId := Some "0x1::usdt::USDT";
       ReplaceSwapState.outputCurrencyId := None;
       ReplaceSwapState.recipient := None |}
    eq_refl) as (Hst & _ & _ & _ & _ & Hi & _).
  split; [exact Hst | exact Hi].
Defined.
